(** * Nudelink: the heuristic cleaner [stripTracking] and the ClearURLs
      rule interpreter [applyClearUrls]

    The two cleaners of the extension are embedded as Rocq functions over an
    explicit model of the JavaScript values they manipulate.  The runtime
    services they call (the URL parser, [URLSearchParams] serialisation,
    [decodeURIComponent], [RegExp], and the two string methods that depend
    on the Unicode tables, [toLowerCase] and [trim]) are gathered in the
    class [Platform];
    the general theorems hold for every platform, and the concrete examples
    run on [Reference.platform], an executable model of those services. *)

From stdpp Require Import base strings list gmap.
From Stdlib Require Import Ascii String List Bool Arith Lia.
Import ListNotations.
Local Open Scope string_scope.
Local Open Scope list_scope.

(** ** JavaScript string primitives

    A string is held as the bytes of its UTF-8 encoding.  The primitives
    defined here compare or cut byte sequences, which on well-formed strings
    is what the JavaScript methods do on code units.  [toLowerCase] and
    [trim] are not among them: they read the Unicode tables and belong to
    the runtime (see [Platform]).  What they do to a string of ASCII
    characters is fixed by ECMAScript and written out below as
    [asciiLowerCase] and [asciiTrim]. *)

Module JS.

(** A string of ASCII characters only. *)
Fixpoint isAscii (s : string) : bool :=
  match s with
  | EmptyString => true
  | String c s' => (nat_of_ascii c <? 128)%nat && isAscii s'
  end.

Definition is_upper (c : ascii) : bool :=
  (65 <=? nat_of_ascii c)%nat && (nat_of_ascii c <=? 90)%nat.

Definition lower_char (c : ascii) : ascii :=
  if is_upper c then ascii_of_nat (nat_of_ascii c + 32) else c.

(** Case folding of the letters A to Z: [s.toLowerCase()] for a string of
    ASCII characters. *)
Fixpoint asciiLowerCase (s : string) : string :=
  match s with
  | EmptyString => EmptyString
  | String c s' => String (lower_char c) (asciiLowerCase s')
  end.

(** [s.startsWith(p)] *)
Fixpoint startsWith (p s : string) : bool :=
  match p, s with
  | EmptyString, _ => true
  | String a p', String b s' => Ascii.eqb a b && startsWith p' s'
  | String _ _, EmptyString => false
  end.

(** [s.endsWith(p)] *)
Definition endsWith (p s : string) : bool :=
  (String.length p <=? String.length s)%nat &&
  String.eqb (substring (String.length s - String.length p) (String.length p) s) p.

(** [s.includes(p)] *)
Fixpoint includes (p s : string) : bool :=
  startsWith p s ||
  match s with
  | EmptyString => false
  | String _ s' => includes p s'
  end.

(** The ASCII characters that [trim] removes: TAB, LF, VT, FF, CR and the
    space. *)
Definition is_space (c : ascii) : bool :=
  let n := nat_of_ascii c in
  ((9 <=? n)%nat && (n <=? 13)%nat) || (n =? 32)%nat.

Fixpoint trimStart (s : string) : string :=
  match s with
  | String c s' => if is_space c then trimStart s' else s
  | EmptyString => EmptyString
  end.

Fixpoint trimEnd (s : string) : string :=
  match s with
  | EmptyString => EmptyString
  | String c s' =>
      match trimEnd s' with
      | EmptyString => if is_space c then EmptyString else String c EmptyString
      | t => String c t
      end
  end.

(** [s.trim()] for a string of ASCII characters. *)
Definition asciiTrim (s : string) : string := trimEnd (trimStart s).

(** Truthiness of a value that is a string or null/undefined. *)
Definition truthy (v : option string) : bool :=
  match v with
  | Some (String _ _) => true
  | _ => false
  end.

(** [a || b] on values that are strings or null. *)
Definition or_else (a b : option string) : option string :=
  if truthy a then a else b.

(** [s.replace(/c$/, "")] for a single literal character [c]. *)
Fixpoint dropLast (c : ascii) (s : string) : string :=
  match s with
  | EmptyString => EmptyString
  | String a EmptyString => if Ascii.eqb a c then EmptyString else s
  | String a s' => String a (dropLast c s')
  end.

(** Removal of one leading character [c], if present. *)
Definition dropFirst (c : ascii) (s : string) : string :=
  match s with
  | String a s' => if Ascii.eqb a c then s' else s
  | EmptyString => EmptyString
  end.

(** [s.replace(/^#\??/, "")] *)
Definition dropHashMark (s : string) : string :=
  match s with
  | String "#" s' => dropFirst "?" s'
  | _ => s
  end.

End JS.

(** ** URL objects

    The state of a JavaScript [URL] object as far as the cleaners observe
    it.  [prefix] is the serialisation of everything that precedes the path
    (scheme, "://", credentials, host and port); [query] and [fragment] are
    [None] when the URL has none (which differs from an empty one: "?" alone
    is [Some ""]); [searchParams] is the list held by the object's
    [URLSearchParams]. *)

Record URL := mkURL {
  prefix : string;
  hostname : string;
  pathname : string;
  query : option string;
  fragment : option string;
  searchParams : list (string * string)
}.

(** ** The runtime *)

Class Platform := {
  (** [new URL(s)]; [None] when it throws *)
  URL_new : string -> option URL;
  (** the application/x-www-form-urlencoded parser and serialiser *)
  urlencoded_parse : string -> list (string * string);
  urlencoded_serialize : list (string * string) -> string;
  (** percent-encoding applied by the [search] and [hash] setters *)
  query_encode : string -> string;
  fragment_encode : string -> string;
  (** [decodeURIComponent(s)]; [None] when it throws *)
  decodeURIComponent : string -> option string;
  (** compiled regular expressions *)
  RegExp : Type;
  (** [new RegExp(source, flags)]; [None] when it throws *)
  RegExp_new : string -> string -> option RegExp;
  (** [re.test(s)], for a regex without the g flag *)
  RegExp_test : RegExp -> string -> bool;
  (** [re.exec(s)?.[1]] *)
  RegExp_exec1 : RegExp -> string -> option string;
  (** [s.replace(re, "")] *)
  String_replace : string -> RegExp -> string;
  (** [s.toLowerCase()] and [s.trim()], which ECMAScript defines from the
      Unicode case mappings and white-space classes; on a string of ASCII
      characters they fold the letters A to Z and strip the six ASCII
      white-space characters *)
  String_toLowerCase : string -> string;
  String_trim : string -> string;
  String_toLowerCase_ascii :
    forall s, JS.isAscii s = true -> String_toLowerCase s = JS.asciiLowerCase s;
  String_trim_ascii :
    forall s, JS.isAscii s = true -> String_trim s = JS.asciiTrim s
}.

Section URLObjects.
Context `{Platform}.

(** [u.toString()] *)
Definition URL_toString (u : URL) : string :=
  prefix u ++ pathname u
  ++ match query u with Some q => "?" ++ q | None => "" end
  ++ match fragment u with Some f => "#" ++ f | None => "" end.

(** [u.hash] *)
Definition URL_hash (u : URL) : string :=
  match fragment u with
  | Some (String c f) => "#" ++ String c f
  | _ => ""
  end.

(** [u.hash = v] *)
Definition URL_set_hash (u : URL) (v : string) : URL :=
  let f := if String.eqb v "" then None
           else Some (fragment_encode (JS.dropFirst "#" v)) in
  mkURL (prefix u) (hostname u) (pathname u) (query u) f (searchParams u).

(** [u.search = v] *)
Definition URL_set_search (u : URL) (v : string) : URL :=
  if String.eqb v "" then
    mkURL (prefix u) (hostname u) (pathname u) None (fragment u) []
  else
    let input := JS.dropFirst "?" v in
    mkURL (prefix u) (hostname u) (pathname u) (Some (query_encode input))
          (fragment u) (urlencoded_parse input).

(** [new URLSearchParams(s)] *)
Definition URLSearchParams_new (s : string) : list (string * string) :=
  urlencoded_parse (JS.dropFirst "?" s).

(** [params.keys()], as an array *)
Definition params_keys (l : list (string * string)) : list string := map fst l.

(** [params.get(name)] *)
Fixpoint params_get (l : list (string * string)) (name : string) : option string :=
  match l with
  | [] => None
  | (k, v) :: l' => if String.eqb k name then Some v else params_get l' name
  end.

(** [params.delete(name)] on a detached [URLSearchParams] *)
Definition params_delete (l : list (string * string)) (name : string)
  : list (string * string) :=
  List.filter (fun p => negb (String.eqb (fst p) name)) l.

(** [u.searchParams.delete(name)]: the list is filtered and the URL's query
    is replaced by the serialisation of what is left (null when empty). *)
Definition searchParams_delete (u : URL) (name : string) : URL :=
  let l := params_delete (searchParams u) name in
  let s := urlencoded_serialize l in
  mkURL (prefix u) (hostname u) (pathname u)
        (if String.eqb s "" then None else Some s) (fragment u) l.

(** [u.search = u.searchParams.toString() ? "?" + ... : ""]: the query is
    rebuilt from the parameters. *)
Definition normalizeSearch (u : URL) : URL :=
  let s := urlencoded_serialize (searchParams u) in
  URL_set_search u (if String.eqb s "" then "" else "?" ++ s).

(** Shared normalisation: rebuild the query, then drop a trailing "?" and a
    trailing "#" from the serialisation. *)
Definition normalizeUrl (u : URL) : string :=
  JS.dropLast "#" (JS.dropLast "?" (URL_toString (normalizeSearch u))).

End URLObjects.

(** ** Results *)

Record CleanResult := mkResult {
  url : string;
  changed : bool;
  unwrappedFrom : option string;
  error : option string
}.

Definition InvalidURL : string := "Invalid URL".
Definition RulesUnavailable : string := "Rules not available".

(** ** The heuristic cleaner (striptracking.js) *)

Record StripOptions := mkStripOptions {
  keepParams : list string;
  extraBadParams : list string;
  removeReferral : bool
}.

(** [opts = {}]: every field takes its default. *)
Definition defaultStripOptions : StripOptions := mkStripOptions [] [] true.

Section StripTracking.
Context `{Platform}.

(** The two tables imported from trackingConstants.js. *)
Variable BAD_PARAMS_LIST : list string.
Variable REFERRAL_PARAMS_LIST : list string.

Variable opts : StripOptions.

Definition keep : gset string :=
  list_to_set (map String_toLowerCase (keepParams opts)).

Definition BAD_PARAMS : gset string :=
  list_to_set BAD_PARAMS_LIST
  ∪ (if removeReferral opts then list_to_set REFERRAL_PARAMS_LIST else ∅)
  ∪ list_to_set (map String_toLowerCase (extraBadParams opts)).

Definition shouldRemove (key : string) : bool :=
  let k := String_toLowerCase key in
  if bool_decide (k ∈ keep) then false
  else if JS.startsWith "utm_" k then true
  else bool_decide (k ∈ BAD_PARAMS).

(** The value returned by [unwrapKnownRedirectors]: the next raw URL and
    the redirector it was taken from. *)
Definition unwrapKnownRedirectors (urlStr : string) : string * option string :=
  match URL_new urlStr with
  | None => (urlStr, None)
  | Some u =>
      let get := params_get (searchParams u) in
      let candidate := JS.or_else (get "url") (get "q") in
      if (JS.endsWith "google.com" (hostname u)
          || JS.endsWith "google.com.au" (hostname u))
         && String.eqb (pathname u) "/url"
         && JS.truthy candidate
      then (default "" candidate, Some "google")
      else if (String.eqb (hostname u) "l.facebook.com"
               || String.eqb (pathname u) "/l.php")
              && JS.truthy (get "u")
      then (default "" (get "u"), Some "facebook")
      else if JS.endsWith "instagram.com" (hostname u) && JS.truthy (get "u")
      then (default "" (get "u"), Some "instagram")
      else (urlStr, None)
  end.

(** One iteration of the loop over the query keys. *)
Definition removeQueryKey (st : URL * bool) (key : string) : URL * bool :=
  if shouldRemove key then (searchParams_delete (fst st) key, true) else st.

(** The loop over [Array.from(urlObj.searchParams.keys())]. *)
Definition removeQueryParams (st : URL * bool) : URL * bool :=
  fold_left removeQueryKey (params_keys (searchParams (fst st))) st.

(** One iteration of the loop over the keys of the hash parameters. *)
Definition removeHashKey (st : list (string * string) * bool) (key : string)
  : list (string * string) * bool :=
  if shouldRemove key then (params_delete (fst st) key, true) else st.

(** The hash block: runs only when the hash is not empty and has an "=". *)
Definition cleanHash (st : URL * bool) : URL * bool :=
  let urlObj := fst st in
  if negb (String.eqb (URL_hash urlObj) "") && JS.includes "=" (URL_hash urlObj)
  then
    let hashParams := URLSearchParams_new (JS.dropHashMark (URL_hash urlObj)) in
    let '(hashParams', hashChanged) :=
      fold_left removeHashKey (params_keys hashParams) (hashParams, false) in
    if hashChanged then
      let nextHash := urlencoded_serialize hashParams' in
      (URL_set_hash urlObj (if String.eqb nextHash "" then "" else "#" ++ nextHash),
       true)
    else st
  else st.

Definition stripTracking (input : string) : CleanResult :=
  let raw := String_trim input in
  let unwrapped := unwrapKnownRedirectors raw in
  match URL_new (fst unwrapped) with
  | None => mkResult input false None (Some InvalidURL)
  | Some urlObj =>
      let st := cleanHash (removeQueryParams (urlObj, JS.truthy (snd unwrapped))) in
      mkResult (normalizeUrl (fst st)) (snd st)
               (if JS.truthy (snd unwrapped) then snd unwrapped else None) None
  end.

End StripTracking.

(** ** The rule interpreter (clearurls-apply.js) *)

(** A provider of the ClearURLs rules JSON.  A list-valued field is [None]
    when the JSON value is not an array ([Array.isArray] fails). *)
Record Provider := mkProvider {
  urlPattern : string;
  exceptions : option (list string);
  redirections : option (list string);
  rules : option (list string);
  referralMarketing : option (list string);
  rawRules : option (list string)
}.

(** The [rulesJson] argument: null or undefined, a value that is not an
    object, or an object whose [providers] member, when present, maps
    provider names to providers (in the order of [Object.values]). *)
Inductive RulesJson :=
| RulesNull
| RulesNotObject
| RulesObject (providers : option (list (string * Provider))).

Record ApplyOptions := mkApplyOptions { allowReferral : bool }.

(** [{ allowReferral = false } = {}] *)
Definition defaultApplyOptions : ApplyOptions := mkApplyOptions false.

Definition Object_values {A} (o : list (string * A)) : list A := map snd o.

(** [(x) => (Array.isArray(x) ? x : [])] *)
Definition asList {A} (x : option (list A)) : list A := default [] x.

(** [/[.*+?^${}()|[\]\\]/.test(s)] *)
Definition isMetaChar (c : ascii) : bool :=
  existsb (Ascii.eqb c)
    ["."; "*"; "+"; "?"; "^"; "$"; "{"; "}"; "("; ")"; "|"; "["; "]"; "\"]%char.

Fixpoint hasMetaChar (s : string) : bool :=
  match s with
  | EmptyString => false
  | String c s' => isMetaChar c || hasMetaChar s'
  end.

(** The test that makes an entry a plain parameter name. *)
Definition isPlainName (s : string) : bool :=
  negb (hasMetaChar s) && negb (JS.includes "=" s)
  && negb (JS.includes "[" s) && negb (JS.includes "\b" s).

Section ApplyClearUrls.
Context `{Platform}.

Definition safeRegExp (source flags : string) : option RegExp :=
  RegExp_new source flags.

(** [provider.exceptions.some(...)], false when there is no array. *)
Definition isExcepted (p : Provider) (s : string) : bool :=
  match exceptions p with
  | Some exs =>
      existsb (fun ex => match safeRegExp ex "i" with
                         | Some re => RegExp_test re s
                         | None => false
                         end) exs
  | None => false
  end.

(** *** 1) Redirections *)

(** The body of the loop over [provider.redirections]; [urlStr] is the
    constant computed before the loops. *)
Definition redirectOne (urlStr : string) (st : URL * bool) (redir : string)
  : URL * bool :=
  match safeRegExp redir "i" with
  | None => st
  | Some re =>
      let target := RegExp_exec1 re urlStr in
      if JS.truthy target then
        let next := default (default "" target)
                            (decodeURIComponent (default "" target)) in
        match URL_new next with
        | Some w => (w, true)
        | None => st
        end
      else st
  end.

(** The body of the first loop over the providers. *)
Definition redirectProvider (urlStr : string) (st : URL * bool) (p : Provider)
  : URL * bool :=
  match safeRegExp (urlPattern p) "i" with
  | None => st
  | Some urlRe =>
      if negb (RegExp_test urlRe urlStr) then st
      else if isExcepted p urlStr then st
      else match redirections p with
           | Some rs => fold_left (redirectOne urlStr) rs st
           | None => st
           end
  end.

Definition redirectionPass (providers : list Provider) (workingUrl : URL)
  : URL * bool :=
  fold_left (redirectProvider (URL_toString workingUrl)) providers
            (workingUrl, false).

(** *** 2) Parameter removal *)

(** The body of the loop that sorts the entries into [nameSet] and
    [regexList]. *)
Definition classifyEntry (acc : gset string * list RegExp) (entry : string)
  : gset string * list RegExp :=
  if isPlainName entry then ({[ String_toLowerCase entry ]} ∪ fst acc, snd acc)
  else match safeRegExp entry "i" with
       | Some re => (fst acc, snd acc ++ [re])
       | None => acc
       end.

Definition classify (rawEntries : list string) : gset string * list RegExp :=
  fold_left classifyEntry rawEntries (∅, []).

(** The value of [remove] for a query key. *)
Definition removes (nameSet : gset string) (regexList : list RegExp)
    (key : string) : bool :=
  let lower := String_toLowerCase key in
  bool_decide (lower ∈ nameSet)
  || existsb (fun re => RegExp_test re lower || RegExp_test re (lower ++ "="))
             regexList.

(** The body of the loop over the query keys. *)
Definition removeKey (nameSet : gset string) (regexList : list RegExp)
    (st : URL * bool) (key : string) : URL * bool :=
  if removes nameSet regexList key
  then (searchParams_delete (fst st) key, true)
  else st.

(** The body of the loop over [provider.rawRules]. *)
Definition applyRawRule (st : URL * bool) (raw : string) : URL * bool :=
  match safeRegExp raw "ig" with
  | None => st
  | Some re =>
      let before := URL_toString (fst st) in
      let after := String_replace before re in
      if negb (String.eqb after before) then
        match URL_new after with
        | Some w => (w, true)
        | None => st
        end
      else st
  end.

Definition rawEntries (o : ApplyOptions) (p : Provider) : list string :=
  asList (rules p)
  ++ (if negb (allowReferral o) then asList (referralMarketing p) else []).

(** The body of the second loop over the providers. *)
Definition removalProvider (o : ApplyOptions) (st : URL * bool) (p : Provider)
  : URL * bool :=
  match safeRegExp (urlPattern p) "i" with
  | None => st
  | Some urlRe =>
      if negb (RegExp_test urlRe (URL_toString (fst st))) then st
      else if isExcepted p (URL_toString (fst st)) then st
      else
        let '(nameSet, regexList) := classify (rawEntries o p) in
        let st1 := fold_left (removeKey nameSet regexList)
                             (params_keys (searchParams (fst st))) st in
        match rawRules p with
        | Some rs => fold_left applyRawRule rs st1
        | None => st1
        end
  end.

Definition removalPass (o : ApplyOptions) (providers : list Provider)
    (st : URL * bool) : URL * bool :=
  fold_left (removalProvider o) providers st.

Definition applyClearUrls (inputUrl : string) (rulesJson : RulesJson)
    (o : ApplyOptions) : CleanResult :=
  match rulesJson with
  | RulesObject (Some providersObj) =>
      match URL_new (String_trim inputUrl) with
      | None => mkResult inputUrl false None (Some InvalidURL)
      | Some workingUrl =>
          let providers := Object_values providersObj in
          let st := removalPass o providers (redirectionPass providers workingUrl) in
          mkResult (normalizeUrl (fst st)) (snd st) None None
      end
  | _ => mkResult inputUrl false None (Some RulesUnavailable)
  end.

End ApplyClearUrls.

(** ** A reference platform

    An executable model of the runtime services, used for the concrete
    examples.  It follows the URL Standard on URLs of the shape
    [scheme://host[:port][/path][?query][#fragment]] (and [scheme:path] for
    schemes without authority) whose host is a lower- or upper-case domain
    name and whose path needs neither escaping nor dot-segment removal, and
    ECMAScript on the regular expressions built from literal characters,
    escaped punctuation, [.], character classes, groups, [|], the greedy
    quantifiers [*], [+], [?] and the anchors [^] and [$].  Strings are byte
    strings: UTF-8 decoding is not modelled, and [toLowerCase] and [trim]
    are the ASCII ones, which is what ECMAScript prescribes on the ASCII
    strings of the examples. *)

Module Reference.

(** *** Percent-encoding *)

Definition hexval (c : ascii) : option nat :=
  let n := nat_of_ascii c in
  if (48 <=? n)%nat && (n <=? 57)%nat then Some (n - 48)
  else if (65 <=? n)%nat && (n <=? 70)%nat then Some (n - 55)
  else if (97 <=? n)%nat && (n <=? 102)%nat then Some (n - 87)
  else None.

Definition hexdigit (n : nat) : ascii :=
  if (n <? 10)%nat then ascii_of_nat (48 + n) else ascii_of_nat (55 + n).

Definition percent (c : ascii) : string :=
  let n := nat_of_ascii c in
  String "%" (String (hexdigit (n / 16)) (String (hexdigit (n mod 16)) "")).

(** Percent-decoding as the URL Standard does it: a "%" that is not
    followed by two hexadecimal digits stays. *)
Fixpoint percent_decode (s : string) : string :=
  match s with
  | EmptyString => EmptyString
  | String c t =>
      match (if Ascii.eqb c "%" then
               match t with
               | String a (String b _) =>
                   match hexval a, hexval b with
                   | Some x, Some y => Some (ascii_of_nat (16 * x + y))
                   | _, _ => None
                   end
               | _ => None
               end
             else None), t with
      | Some d, String _ (String _ r) => String d (percent_decode r)
      | _, _ => String c (percent_decode t)
      end
  end.

(** [decodeURIComponent]: a malformed escape throws. *)
Fixpoint decode_uri_component (s : string) : option string :=
  match s with
  | EmptyString => Some EmptyString
  | String c t =>
      if Ascii.eqb c "%" then
        match t with
        | String a (String b r) =>
            match hexval a, hexval b, decode_uri_component r with
            | Some x, Some y, Some r' => Some (String (ascii_of_nat (16 * x + y)) r')
            | _, _, _ => None
            end
        | _ => None
        end
      else option_map (String c) (decode_uri_component t)
  end.

Definition is_alnum (c : ascii) : bool :=
  let n := nat_of_ascii c in
  ((48 <=? n)%nat && (n <=? 57)%nat)
  || ((65 <=? n)%nat && (n <=? 90)%nat)
  || ((97 <=? n)%nat && (n <=? 122)%nat).

Definition encode_with (needs : ascii -> bool) : string -> string :=
  fix go (s : string) : string :=
    match s with
    | EmptyString => EmptyString
    | String c t => ((if needs c then percent c else String c EmptyString) ++ go t)%string
    end.

Definition in_chars (cs : list ascii) (c : ascii) : bool := existsb (Ascii.eqb c) cs.

Definition dquote : ascii := ascii_of_nat 34.

Definition is_c0_or_high (c : ascii) : bool :=
  let n := nat_of_ascii c in (n <=? 32)%nat || (127 <=? n)%nat.

(** The special-query and the fragment percent-encode sets. *)
Definition encode_query : string -> string :=
  encode_with (fun c => is_c0_or_high c
                        || in_chars [dquote; "#"; "<"; ">"; "'"]%char c).

Definition encode_fragment : string -> string :=
  encode_with (fun c => is_c0_or_high c
                        || in_chars [dquote; "<"; ">"; "`"]%char c).

(** *** application/x-www-form-urlencoded *)

(** [s.split(sep)] for a one-character separator. *)
Fixpoint split (sep : ascii) (s : string) : list string :=
  match s with
  | EmptyString => [EmptyString]
  | String c t =>
      if Ascii.eqb c sep then EmptyString :: split sep t
      else match split sep t with
           | x :: xs => String c x :: xs
           | [] => [String c EmptyString]
           end
  end.

(** The part before the first [sep] and, when there is one, the part after. *)
Fixpoint cut (sep : ascii) (s : string) : string * option string :=
  match s with
  | EmptyString => (EmptyString, None)
  | String c t =>
      if Ascii.eqb c sep then (EmptyString, Some t)
      else let '(a, b) := cut sep t in (String c a, b)
  end.

Fixpoint plus_to_space (s : string) : string :=
  match s with
  | EmptyString => EmptyString
  | String c t => String (if Ascii.eqb c "+" then " "%char else c) (plus_to_space t)
  end.

Definition form_parse (s : string) : list (string * string) :=
  flat_map (fun piece =>
    if String.eqb piece "" then []
    else let '(n, v) := cut "=" piece in
         [(percent_decode (plus_to_space n),
           percent_decode (plus_to_space (default "" v)))])
    (split "&" s).

Definition urlencoded_byte (c : ascii) : string :=
  if Ascii.eqb c " " then "+"
  else if is_alnum c || in_chars ["*"; "-"; "."; "_"]%char c then String c EmptyString
  else percent c.

Fixpoint urlencoded_string (s : string) : string :=
  match s with
  | EmptyString => EmptyString
  | String c t => (urlencoded_byte c ++ urlencoded_string t)%string
  end.

Definition form_serialize (l : list (string * string)) : string :=
  String.concat "&"
    (map (fun p => (urlencoded_string (fst p) ++ "=" ++ urlencoded_string (snd p))%string) l).

(** *** The URL parser *)

Definition is_alpha (c : ascii) : bool :=
  let n := nat_of_ascii c in
  ((65 <=? n)%nat && (n <=? 90)%nat) || ((97 <=? n)%nat && (n <=? 122)%nat).

Fixpoint all_chars (p : ascii -> bool) (s : string) : bool :=
  match s with
  | EmptyString => true
  | String c t => p c && all_chars p t
  end.

Definition valid_scheme (s : string) : bool :=
  match s with
  | EmptyString => false
  | String c t =>
      is_alpha c
      && all_chars (fun x => is_alnum x || in_chars ["+"; "-"; "."]%char x) t
  end.

Definition is_special (scheme : string) : bool :=
  existsb (String.eqb scheme) ["http"; "https"; "ws"; "wss"; "ftp"].

Definition default_port (scheme : string) : string :=
  if String.eqb scheme "http" || String.eqb scheme "ws" then "80"
  else if String.eqb scheme "https" || String.eqb scheme "wss" then "443"
  else if String.eqb scheme "ftp" then "21"
  else "".

(** The longest prefix free of the characters [stops], and the rest. *)
Fixpoint span_until (stops : list ascii) (s : string) : string * string :=
  match s with
  | EmptyString => (EmptyString, EmptyString)
  | String c t =>
      if in_chars stops c then (EmptyString, s)
      else let '(a, b) := span_until stops t in (String c a, b)
  end.

Fixpoint drop_slashes (s : string) : string :=
  match s with
  | String "/" t => drop_slashes t
  | _ => s
  end.

(** Query and fragment of what follows the path. *)
Definition parse_tail (s : string) : option string * option string :=
  let '(q, f) :=
    match s with
    | String "?" t => let '(q, r) := span_until ["#"%char] t in (Some q, r)
    | _ => (None, s)
    end in
  (q, match f with String "#" t => Some t | _ => None end).

Definition url_new (s : string) : option URL :=
  match cut ":" s with
  | (_, None) => None
  | (sch, Some rest) =>
      if negb (valid_scheme sch) then None
      else
        let scheme := JS.asciiLowerCase sch in
        let special := is_special scheme in
        let '(q, f) := parse_tail (snd (span_until ["?"; "#"]%char rest)) in
        let q := option_map encode_query q in
        let f := option_map encode_fragment f in
        let body := fst (span_until ["?"; "#"]%char rest) in
        if special || JS.startsWith "//" body then
          let after := if special then drop_slashes body
                       else JS.dropFirst "/" (JS.dropFirst "/" body) in
          let '(authority, path) := span_until ["/"%char] after in
          let '(h, p) := cut ":" authority in
          let host := if special then JS.asciiLowerCase h else h in
          let port := default "" p in
          let port := if String.eqb port (default_port scheme) then "" else port in
          if special && String.eqb host "" then None
          else
            Some (mkURL (scheme ++ "://" ++ host
                         ++ (if String.eqb port "" then "" else ":" ++ port))%string
                        host
                        (if special && String.eqb path "" then "/" else path)
                        q f (form_parse (default "" q)))
        else
          Some (mkURL (scheme ++ ":")%string "" body q f (form_parse (default "" q)))
  end.

(** *** Regular expressions *)

Inductive regex :=
| Eps
| Chr (c : ascii)
| AnyChar
| Class (negated : bool) (ranges : list (ascii * ascii))
| Bol
| Eol
| Seq (a b : regex)
| Alt (a b : regex)
| Star (a : regex)
| Grp (index : nat) (a : regex).

Definition upper_char (c : ascii) : ascii :=
  let n := nat_of_ascii c in
  if (97 <=? n)%nat && (n <=? 122)%nat then ascii_of_nat (n - 32) else c.

Definition in_range (r : ascii * ascii) (c : ascii) : bool :=
  (nat_of_ascii (fst r) <=? nat_of_ascii c)%nat
  && (nat_of_ascii c <=? nat_of_ascii (snd r))%nat.

Definition in_class (ci : bool) (ranges : list (ascii * ascii)) (c : ascii) : bool :=
  existsb (fun r => in_range r c
                    || (ci && (in_range r (JS.lower_char c)
                               || in_range r (upper_char c)))) ranges.

Definition same_char (ci : bool) (a b : ascii) : bool :=
  if ci then Ascii.eqb (JS.lower_char a) (JS.lower_char b) else Ascii.eqb a b.

Definition is_newline (c : ascii) : bool :=
  (nat_of_ascii c =? 10)%nat || (nat_of_ascii c =? 13)%nat.

(** A match in progress: the position reached, the rest of the input and
    the span of capture group 1. *)
Definition cont (R : Type) : Type := nat -> string -> option (nat * nat) -> option R.

(** Backtracking matcher in continuation-passing style.  [pos] is the
    index in the whole input of the first character of [s]. *)
Fixpoint rmatch {R} (r : regex) (ci : bool) (pos : nat) (s : string)
    (cap : option (nat * nat)) (k : cont R) {struct r} : option R :=
  match r with
  | Eps => k pos s cap
  | Chr c =>
      match s with
      | String x t => if same_char ci x c then k (S pos) t cap else None
      | EmptyString => None
      end
  | AnyChar =>
      match s with
      | String x t => if is_newline x then None else k (S pos) t cap
      | EmptyString => None
      end
  | Class negated ranges =>
      match s with
      | String x t =>
          if xorb negated (in_class ci ranges x) then k (S pos) t cap else None
      | EmptyString => None
      end
  | Bol => if (pos =? 0)%nat then k pos s cap else None
  | Eol => match s with EmptyString => k pos s cap | _ => None end
  | Seq a b => rmatch a ci pos s cap (fun pos' s' cap' => rmatch b ci pos' s' cap' k)
  | Alt a b =>
      match rmatch a ci pos s cap k with
      | Some x => Some x
      | None => rmatch b ci pos s cap k
      end
  | Star a =>
      (fix loop (n : nat) (pos : nat) (s : string) (cap : option (nat * nat))
         : option R :=
         match n with
         | O => k pos s cap
         | S n' =>
             match rmatch a ci pos s cap
                     (fun pos' s' cap' =>
                        if (pos <? pos')%nat then loop n' pos' s' cap' else None) with
             | Some x => Some x
             | None => k pos s cap
             end
         end) (S (String.length s)) pos s cap
  | Grp index a =>
      rmatch a ci pos s cap
        (fun pos' s' cap' =>
           k pos' s' (if (index =? 1)%nat then Some (pos, pos') else cap'))
  end.

(** The leftmost match: its start, its end and the span of group 1. *)
Fixpoint search (r : regex) (ci : bool) (pos : nat) (s : string)
  : option (nat * nat * option (nat * nat)) :=
  match rmatch r ci pos s None (fun e _ cap => Some (pos, e, cap)) with
  | Some m => Some m
  | None =>
      match s with
      | EmptyString => None
      | String _ t => search r ci (S pos) t
      end
  end.

(** Removal of every match, left to right ([skip] characters of the
    current match are still to be dropped). *)
Fixpoint remove_all (r : regex) (ci : bool) (skip pos : nat) (s : string) : string :=
  match s with
  | EmptyString => EmptyString
  | String c t =>
      match skip with
      | S skip' => remove_all r ci skip' (S pos) t
      | O =>
          match rmatch r ci pos s None (fun e _ _ => Some e) with
          | Some e =>
              if (pos <? e)%nat then remove_all r ci (e - pos - 1) (S pos) t
              else String c (remove_all r ci 0 (S pos) t)
          | None => String c (remove_all r ci 0 (S pos) t)
          end
      end
  end.

(** *** The pattern parser *)

(** The members of a character class, up to the closing bracket. *)
Fixpoint parse_class (s : string) (acc : list (ascii * ascii))
  : option (list (ascii * ascii) * string) :=
  match s with
  | EmptyString => None
  | String c t =>
      if Ascii.eqb c "]" then Some (rev acc, t)
      else if Ascii.eqb c "\" then
        match t with
        | String e t' => if is_alnum e then None else parse_class t' ((e, e) :: acc)
        | EmptyString => None
        end
      else
        match t with
        | String "-" (String hi t') =>
            if Ascii.eqb hi "]" then parse_class t ((c, c) :: acc)
            else if Ascii.eqb hi "\" then None
            else parse_class t' ((c, hi) :: acc)
        | _ => parse_class t ((c, c) :: acc)
        end
  end.

(** A quantifier following an atom, if any. *)
Definition quantified (a : regex) (s : string) : regex * string :=
  match s with
  | String "*" t => (Star a, t)
  | String "+" t => (Seq a (Star a), t)
  | String "?" t => (Alt a Eps, t)
  | _ => (a, s)
  end.

(** Recursive-descent parser; [gc] counts the capture groups opened so
    far.  [None] outside the syntax described above. *)
Fixpoint parse_alt (n : nat) (s : string) (gc : nat) {struct n}
  : option (regex * string * nat) :=
  match n with
  | O => None
  | S n' =>
      match parse_seq n' s gc with
      | Some (a, String "|" t, gc') =>
          match parse_alt n' t gc' with
          | Some (b, t', gc'') => Some (Alt a b, t', gc'')
          | None => None
          end
      | r => r
      end
  end
with parse_seq (n : nat) (s : string) (gc : nat) {struct n}
  : option (regex * string * nat) :=
  match n with
  | O => None
  | S n' =>
      match s with
      | EmptyString | String "|" _ | String ")" _ => Some (Eps, s, gc)
      | _ =>
          match parse_atom n' s gc with
          | Some (a, t, gc') =>
              let '(a', t') := quantified a t in
              match parse_seq n' t' gc' with
              | Some (b, t'', gc'') => Some (Seq a' b, t'', gc'')
              | None => None
              end
          | None => None
          end
      end
  end
with parse_atom (n : nat) (s : string) (gc : nat) {struct n}
  : option (regex * string * nat) :=
  match n with
  | O => None
  | S n' =>
      match s with
      | EmptyString => None
      | String "(" (String "?" (String ":" t)) =>
          match parse_alt n' t gc with
          | Some (a, String ")" t', gc') => Some (Grp 0 a, t', gc')
          | _ => None
          end
      | String "(" t =>
          match parse_alt n' t (S gc) with
          | Some (a, String ")" t', gc') => Some (Grp (S gc) a, t', gc')
          | _ => None
          end
      | String "[" (String "^" t) =>
          match parse_class t [] with
          | Some (ranges, t') => Some (Class true ranges, t', gc)
          | None => None
          end
      | String "[" t =>
          match parse_class t [] with
          | Some (ranges, t') => Some (Class false ranges, t', gc)
          | None => None
          end
      | String "\" (String e t) =>
          if is_alnum e then None else Some (Chr e, t, gc)
      | String "." t => Some (AnyChar, t, gc)
      | String "^" t => Some (Bol, t, gc)
      | String "$" t => Some (Eol, t, gc)
      | String c t =>
          if in_chars ["*"; "+"; "?"; "{"; "}"; "]"; "\"]%char c then None
          else Some (Chr c, t, gc)
      end
  end.

Record compiled := mkCompiled {
  ast : regex;
  ignoreCase : bool;
  global : bool
}.

Definition regexp_new (source flags : string) : option compiled :=
  match parse_alt (3 * String.length source + 3) source 0 with
  | Some (r, EmptyString, _) =>
      Some (mkCompiled r (JS.includes "i" flags) (JS.includes "g" flags))
  | _ => None
  end.

Definition regexp_test (re : compiled) (s : string) : bool :=
  match search (ast re) (ignoreCase re) 0 s with
  | Some _ => true
  | None => false
  end.

Definition regexp_exec1 (re : compiled) (s : string) : option string :=
  match search (ast re) (ignoreCase re) 0 s with
  | Some (_, _, Some (a, b)) => Some (substring a (b - a) s)
  | _ => None
  end.

Definition string_replace (s : string) (re : compiled) : string :=
  if global re then remove_all (ast re) (ignoreCase re) 0 0 s
  else match search (ast re) (ignoreCase re) 0 s with
       | Some (a, b, _) => (substring 0 a s ++ substring b (String.length s - b) s)%string
       | None => s
       end.

#[export] Instance platform : Platform := {|
  URL_new := url_new;
  urlencoded_parse := form_parse;
  urlencoded_serialize := form_serialize;
  query_encode := encode_query;
  fragment_encode := encode_fragment;
  decodeURIComponent := decode_uri_component;
  RegExp := compiled;
  RegExp_new := regexp_new;
  RegExp_test := regexp_test;
  RegExp_exec1 := regexp_exec1;
  String_replace := string_replace;
  String_toLowerCase := JS.asciiLowerCase;
  String_trim := JS.asciiTrim;
  String_toLowerCase_ascii := fun s _ => eq_refl;
  String_trim_ascii := fun s _ => eq_refl
|}.

End Reference.

(** * Definitions used by the statements *)

(** ** The loops that delete query keys

    Both cleaners run the same loop over a snapshot of the keys: a key that
    the predicate [rm] selects is deleted from the parameters. *)

Section DeleteLoopDefinitions.
Context `{Platform}.
Variable rm : string -> bool.

Definition deleteKey (st : URL * bool) (key : string) : URL * bool :=
  if rm key then (searchParams_delete (fst st) key, true) else st.

Definition deleteParam (st : list (string * string) * bool) (key : string)
  : list (string * string) * bool :=
  if rm key then (params_delete (fst st) key, true) else st.

(** A pair survives the loop over [ks] unless its key is selected and
    occurs in [ks]. *)
Definition survives (ks : list string) (p : string * string) : bool :=
  negb (rm (fst p) && existsb (String.eqb (fst p)) ks).

End DeleteLoopDefinitions.

(** ** The URL object that [stripTracking] serialises *)

Section CleanedDefinition.
Context `{Platform}.
Variable BAD_PARAMS_LIST : list string.
Variable REFERRAL_PARAMS_LIST : list string.
Variable opts : StripOptions.

(** The state reached before normalisation when the raw URL parses to
    [urlObj]; [unwrapped] tells whether a redirector was unwrapped. *)
Definition cleaned (urlObj : URL) (unwrapped : bool) : URL * bool :=
  cleanHash BAD_PARAMS_LIST REFERRAL_PARAMS_LIST opts
    (removeQueryParams BAD_PARAMS_LIST REFERRAL_PARAMS_LIST opts
       (urlObj, unwrapped)).

(** The same object in closed form.  [keptParams] leaves out the pairs
    whose key is selected, keeping the others in their order;
    [strippedFragment] is the fragment after the hash block, which acts
    only on a fragment that is not empty, contains "=" and, read as
    parameters, holds a selected key; [strippedUrl] is the parsed URL with
    its parameters and its fragment so reduced, every other part as
    parsed. *)
Definition keptParams (l : list (string * string)) : list (string * string) :=
  List.filter
    (fun p => negb (shouldRemove BAD_PARAMS_LIST REFERRAL_PARAMS_LIST opts (fst p)))
    l.

Definition strippedFragment (urlObj : URL) : option string :=
  let hashParams := URLSearchParams_new (JS.dropHashMark (URL_hash urlObj)) in
  if negb (String.eqb (URL_hash urlObj) "")
     && JS.includes "=" (URL_hash urlObj)
     && existsb (shouldRemove BAD_PARAMS_LIST REFERRAL_PARAMS_LIST opts)
                (params_keys hashParams)
  then
    let s := urlencoded_serialize (keptParams hashParams) in
    if String.eqb s "" then None else Some (fragment_encode s)
  else fragment urlObj.

Definition strippedUrl (urlObj : URL) : URL :=
  mkURL (prefix urlObj) (hostname urlObj) (pathname urlObj) (query urlObj)
        (strippedFragment urlObj) (keptParams (searchParams urlObj)).

End CleanedDefinition.

(** ** The redirection pass, described by its matches *)

Section RedirectionDefinitions.
Context `{Platform}.

(** A provider takes part for the string [s]: its pattern compiles and
    matches, and no exception matches. *)
Definition providerActive (p : Provider) (s : string) : bool :=
  match safeRegExp (urlPattern p) "i" with
  | Some urlRe => RegExp_test urlRe s && negb (isExcepted p s)
  | None => false
  end.

(** The URL that a redirection pattern yields on [s]: group 1 of its match,
    not empty, decoded when it can be, and parsed. *)
Definition redirectTarget (s redir : string) : option URL :=
  match safeRegExp redir "i" with
  | Some re =>
      match RegExp_exec1 re s with
      | Some (String c t) =>
          URL_new (default (String c t) (decodeURIComponent (String c t)))
      | _ => None
      end
  | None => None
  end.

(** All the targets found on [s], in the order of the providers and of
    their redirections. *)
Definition redirectTargets (s : string) (providers : list Provider) : list URL :=
  flat_map (fun p => if providerActive p s
                     then omap (redirectTarget s) (asList (redirections p))
                     else []) providers.

Definition nonempty {A} (l : list A) : bool :=
  match l with [] => false | _ => true end.

(** The pass as the specification words it: every test reads the updated
    working URL. *)
Definition redirectOne_chained (st : URL * bool) (redir : string) : URL * bool :=
  redirectOne (URL_toString (fst st)) st redir.

Definition redirectProvider_chained (st : URL * bool) (p : Provider) : URL * bool :=
  match safeRegExp (urlPattern p) "i" with
  | None => st
  | Some urlRe =>
      if negb (RegExp_test urlRe (URL_toString (fst st))) then st
      else if isExcepted p (URL_toString (fst st)) then st
      else match redirections p with
           | Some rs => fold_left redirectOne_chained rs st
           | None => st
           end
  end.

Definition redirectionPass_chained (providers : list Provider) (workingUrl : URL)
  : URL * bool :=
  fold_left redirectProvider_chained providers (workingUrl, false).

End RedirectionDefinitions.

(** ** Sample data for the concrete examples *)

Module Samples.

(** Modelled from the spec: trackingConstants.js, which exports the two
    tables, is not among the sources.  The README and the specification
    name [gclid] and [fbclid] as tracking parameters and [ref] and [affid]
    as referral parameters; the examples use no other member. *)
Definition BAD_PARAMS_LIST : list string := ["gclid"; "fbclid"].
Definition REFERRAL_PARAMS_LIST : list string := ["ref"; "affid"].

(** The heuristic cleaner on the reference platform. *)
Definition clean (opts : StripOptions) (input : string) : CleanResult :=
  stripTracking (H := Reference.platform)
    BAD_PARAMS_LIST REFERRAL_PARAMS_LIST opts input.

(** The rule interpreter on the reference platform. *)
Definition apply (input : string) (rulesJson : RulesJson) (o : ApplyOptions)
  : CleanResult :=
  applyClearUrls (H := Reference.platform) input rulesJson o.

Definition parse (s : string) : option URL := URL_new (Platform := Reference.platform) s.

(** A ruleset in the ClearURLs format: a catch-all provider with parameter
    rules and a redirector provider. *)
Definition globalRules : Provider :=
  mkProvider ".*" None None
    (Some ["(?:%3F)?utm(?:_[a-z_]*)?"; "fbclid"; "gclid"])
    (Some ["ref"]) None.

Definition outlink : Provider :=
  mkProvider "^https?://out\.example\.com" None
    (Some ["^https?://out\.example\.com/.*[?&]to=([^&]+)"])
    None None None.

Definition rules : RulesJson :=
  RulesObject (Some [("globalRules", globalRules); ("outlink", outlink)]).

(** Two redirector providers, each wrapping its target in a parameter. *)
Definition hopA : Provider :=
  mkProvider "^https://a\.example/" None (Some ["[?&]to=([^&]+)"]) None None None.

Definition hopB : Provider :=
  mkProvider "^https://b\.example/" None (Some ["[?&]next=([^&]+)"]) None None None.

Definition twoHops : string :=
  "https://a.example/r?to=https%3A%2F%2Fb.example%2Fr%3Fnext%3Dhttps%253A%252F%252Fc.example%252F".

(** A provider whose raw rule deletes the scheme. *)
Definition rawScheme : Provider :=
  mkProvider ".*" None None None None (Some ["^https:"]).

Definition pageInput : string :=
  "https://example.com/page?utm_source=google&custom_param=value#utm_content=ad&section=2".

(** A page address with tracking parameters in its query and in its
    fragment, and the URL object it parses to. *)
Definition pageUrl : URL :=
  mkURL "https://example.com" "example.com" "/page"
        (Some "utm_source=google&custom_param=value"%string)
        (Some "utm_content=ad&section=2"%string)
        [("utm_source", "google"); ("custom_param", "value")]%string.

(** The URL object of a Facebook redirector link. *)
Definition facebookUrl : URL :=
  mkURL "https://l.facebook.com" "l.facebook.com" "/l.php"
        (Some "u=https%3A%2F%2Fexample.com%2F"%string) None
        [("u", "https://example.com/")]%string.

(** A URL object without tracking parameters. *)
Definition plainUrl : URL :=
  mkURL "https://example.com" "example.com" "/" (Some "a=1"%string) None
        [("a", "1")]%string.

(** The pattern [^https:] compiled with the flags "ig". *)
Definition dropScheme : Reference.compiled :=
  Reference.mkCompiled
    (Reference.Seq Reference.Bol
       (Reference.Seq (Reference.Chr "h")
          (Reference.Seq (Reference.Chr "t")
             (Reference.Seq (Reference.Chr "t")
                (Reference.Seq (Reference.Chr "p")
                   (Reference.Seq (Reference.Chr "s")
                      (Reference.Seq (Reference.Chr ":") Reference.Eps)))))))
    true true.

End Samples.

(** ** Rulesets without the patterns that do not compile *)

Section SanitizedRules.
Context `{Platform}.

(** [safeRegExp] gives a regex for this source. *)
Definition compiles (flags source : string) : bool :=
  match safeRegExp source flags with Some _ => true | None => false end.

(** The provider with every pattern that does not compile taken out of its
    lists (a plain name in [rules] or [referralMarketing] is not a
    pattern and stays). *)
Definition compilingOnly (p : Provider) : Provider :=
  mkProvider (urlPattern p)
    (option_map (List.filter (compiles "i")) (exceptions p))
    (option_map (List.filter (compiles "i")) (redirections p))
    (option_map (List.filter (fun e => isPlainName e || compiles "i" e)) (rules p))
    (option_map (List.filter (fun e => isPlainName e || compiles "i" e))
                (referralMarketing p))
    (option_map (List.filter (compiles "ig")) (rawRules p)).

(** The providers whose own pattern compiles, each without its patterns
    that do not. *)
Definition compilingRules (providersObj : list (string * Provider))
  : list (string * Provider) :=
  map (fun np => (fst np, compilingOnly (snd np)))
      (List.filter (fun np => compiles "i" (urlPattern (snd np))) providersObj).

End SanitizedRules.

(** The provider without its referralMarketing list. *)
Definition withoutReferral (p : Provider) : Provider :=
  mkProvider (urlPattern p) (exceptions p) (redirections p) (rules p) None
             (rawRules p).

(** The provider with its referralMarketing entries moved to the end of
    its rules. *)
Definition referralAsRules (p : Provider) : Provider :=
  mkProvider (urlPattern p) (exceptions p) (redirections p)
             (Some (asList (rules p) ++ asList (referralMarketing p))) None
             (rawRules p).

(** A step on the state (working URL, changed flag) reports its changes
    when it either returns the state it was given or sets the flag. *)
Definition reportsChange (f : URL * bool -> URL * bool) : Prop :=
  forall st, f st = st \/ snd (f st) = true.


(** * The rules refresh (background.js) and the popups *)

(** ** Stored rules *)

(** The value that [JSON.parse] gives for the rules text, as far as the
    code tells values apart: null, another value that is not an object
    (with its truthiness), or an object with its [providers] member. *)
Inductive Json :=
| JsonNull
| JsonPrimitive (truthy : bool)
| JsonObject (providers : option (list (string * Provider))).

(** The value as [applyClearUrls] receives it. *)
Definition toRulesJson (j : Json) : RulesJson :=
  match j with
  | JsonNull => RulesNull
  | JsonPrimitive _ => RulesNotObject
  | JsonObject providers => RulesObject providers
  end.

Definition Json_truthy (j : Json) : bool :=
  match j with
  | JsonNull => false
  | JsonPrimitive t => t
  | JsonObject _ => true
  end.

Module Background.

Local Open Scope Z_scope.

Definition RULES_URL : string := "https://rules2.clearurls.xyz/data.minify.json".
Definition HASH_URL : string := "https://rules2.clearurls.xyz/rules.minify.hash".
Definition DAILY_ALARM : string := "nudelink_alarm_daily".
Definition RETRY_ALARM : string := "nudelink_alarm_retry".

Definition RETRY_DELAYS_MIN : list Z := [1; 5; 15; 30; 60].
Definition ONE_DAY_MIN : Z := 60 * 24.

(** The object stored under STORAGE_KEY. *)
Record Payload := mkPayload {
  rules : Json;
  ts : Z;
  hash : string
}.

(** The object stored under STATE_KEY; [backoffIndex] may be missing. *)
Record RefreshState := mkRefreshState {
  backoffIndex : option Z
}.

(** An alarm: periodic, or one shot at a time that is [None] when the
    computed time is not a number. *)
Inductive Alarm :=
| Periodic (periodInMinutes : Z)
| OneShot (when : option Z).

(** What the service worker reads and writes: the two entries of
    [chrome.storage.local] and the alarms by name. *)
Record World := mkWorld {
  storedRules : option Payload;
  storedState : option RefreshState;
  alarms : gmap string Alarm
}.

(** What a run receives from outside: the answers of the network ([None]
    when [fetchText] throws, that is on a network error or a status that
    is not 2xx) and the clock. *)
Record Inputs := mkInputs {
  fetchText : string -> option string;
  now : Z
}.

(** Why [downloadAndCacheRules] throws. *)
Inductive Failure :=
| FetchFailed
| HashMismatch
| ParseError.

Inductive Outcome (A : Type) :=
| Ok (a : A)
| Throw (e : Failure).
Arguments Ok {A} a.
Arguments Throw {A} e.

(** *** Small utilities *)

Definition hexDigit (d : nat) : ascii :=
  nth d ["0"; "1"; "2"; "3"; "4"; "5"; "6"; "7"; "8"; "9";
         "a"; "b"; "c"; "d"; "e"; "f"]%char "0"%char.

(** [b.toString(16)] for a byte. *)
Definition toString16 (b : Byte.byte) : string :=
  let n := Byte.to_nat b in
  if (n <? 16)%nat then String (hexDigit n) EmptyString
  else String (hexDigit (n / 16)) (String (hexDigit (n mod 16)) EmptyString).

(** [s.padStart(n, c)] for a one-character filler. *)
Definition padStart (n : nat) (c : ascii) (s : string) : string :=
  (string_of_list_ascii (repeat c (n - String.length s)) ++ s)%string.

(** [[...bytes].map(b => b.toString(16).padStart(2, "0")).join("")] *)
Definition toHex (bytes : list Byte.byte) : string :=
  String.concat "" (map (fun b => padStart 2 "0" (toString16 b)) bytes).

(** Reading the digits back. *)
Definition hexValue (c : ascii) : option nat :=
  let n := nat_of_ascii c in
  if (48 <=? n)%nat && (n <=? 57)%nat then Some (n - 48)%nat
  else if (97 <=? n)%nat && (n <=? 102)%nat then Some (n - 87)%nat
  else None.

Fixpoint fromHex (s : string) : option (list Byte.byte) :=
  match s with
  | EmptyString => Some []
  | String a (String b t) =>
      match hexValue a, hexValue b, fromHex t with
      | Some x, Some y, Some bytes =>
          match Byte.of_nat (16 * x + y) with
          | Some byte => Some (byte :: bytes)
          | None => None
          end
      | _, _, _ => None
      end
  | String _ EmptyString => None
  end.

Section Refresh.
Context `{Platform}.

(** SHA-256 of the UTF-8 encoding of a text, and [JSON.parse] ([None]
    when it throws): functions of the runtime. *)
Variable digest : string -> list Byte.byte.
Variable JSON_parse : string -> option Json.

Definition sha256Hex (text : string) : string := toHex (digest text).

Definition saveRules (payload : Payload) (w : World) : World :=
  mkWorld (Some payload) (storedState w) (alarms w).

Definition loadRules (w : World) : option Payload := storedRules w.

Definition saveState (s : RefreshState) (w : World) : World :=
  mkWorld (storedRules w) (Some s) (alarms w).

(** [... ?? { backoffIndex: 0 }] *)
Definition loadState (w : World) : RefreshState :=
  default (mkRefreshState (Some 0)) (storedState w).

(** *** Download, verify, persist (background.js) *)

Definition downloadAndCacheRules (i : Inputs) (w : World) : World * Outcome Json :=
  match fetchText i RULES_URL, fetchText i HASH_URL with
  | Some rulesText, Some expectedHashRaw =>
      let expectedHash := String_toLowerCase (String_trim expectedHashRaw) in
      let actualHash := sha256Hex rulesText in
      if negb (String.eqb actualHash expectedHash) then (w, Throw HashMismatch)
      else match JSON_parse rulesText with
           | None => (w, Throw ParseError)
           | Some rules =>
               (saveRules (mkPayload rules (now i) actualHash) w, Ok rules)
           end
  | _, _ => (w, Throw FetchFailed)
  end.

(** *** Download only when the upstream hash differs

    [downloadAndCacheRules] of the later version of the file. *)

Definition loadCached (w : World) : option Payload := storedRules w.

Definition downloadAndCacheRulesIfChanged (i : Inputs) (w : World)
  : World * Outcome (Json * bool) :=
  let cached := loadCached w in
  match fetchText i HASH_URL with
  | None => (w, Throw FetchFailed)
  | Some upstreamHashRaw =>
      let upstreamHash := String_toLowerCase (String_trim upstreamHashRaw) in
      let download :=
        match fetchText i RULES_URL with
        | None => (w, Throw FetchFailed)
        | Some rulesText =>
            let actualHash := sha256Hex rulesText in
            if negb (String.eqb actualHash upstreamHash)
            then (w, Throw HashMismatch)
            else match JSON_parse rulesText with
                 | None => (w, Throw ParseError)
                 | Some rules =>
                     (saveRules (mkPayload rules (now i) actualHash) w,
                      Ok (rules, true))
                 end
        end in
      match cached with
      | Some c =>
          if String.eqb (hash c) upstreamHash then (w, Ok (rules c, false))
          else download
      | None => download
      end
  end.

(** *** Scheduling and backoff *)

Definition scheduleDaily (w : World) : World :=
  mkWorld (storedRules w) (storedState w)
          (<[DAILY_ALARM := Periodic ONE_DAY_MIN]> (alarms w)).

(** [mins] is [None] when the delay read from the table is undefined. *)
Definition scheduleRetryIn (i : Inputs) (mins : option Z) (w : World) : World :=
  mkWorld (storedRules w) (storedState w)
          (<[RETRY_ALARM := OneShot (option_map (fun m => now i + m * 60000) mins)]>
             (alarms w)).

(** [array[i]] for a number [i]: undefined outside the array. *)
Definition at_index {A} (l : list A) (i : Z) : option A :=
  if 0 <=? i then l !! Z.to_nat i else None.

Definition handleSuccess (w : World) : World :=
  scheduleDaily (saveState (mkRefreshState (Some 0)) w).

Definition handleFailure (i : Inputs) (w : World) : World :=
  let state := loadState w in
  let idx := Z.min (default 0 (backoffIndex state))
                   (Z.of_nat (length RETRY_DELAYS_MIN) - 1) in
  let delay := at_index RETRY_DELAYS_MIN idx in
  scheduleRetryIn i delay
    (saveState
       (mkRefreshState
          (Some (Z.min (idx + 1) (Z.of_nat (length RETRY_DELAYS_MIN) - 1))))
       w).

(** [ensureFreshRules], for either version of the download. *)
Definition ensureFreshRulesWith {A}
    (download : Inputs -> World -> World * Outcome A)
    (i : Inputs) (w : World) : World * bool :=
  match download i w with
  | (w', Ok _) => (handleSuccess w', true)
  | (w', Throw _) => (handleFailure i w', false)
  end.

Definition ensureFreshRules : Inputs -> World -> World * bool :=
  ensureFreshRulesWith downloadAndCacheRules.

Definition ensureFreshRulesIfChanged : Inputs -> World -> World * bool :=
  ensureFreshRulesWith downloadAndCacheRulesIfChanged.

(** *** Messages (later version) *)

Inductive Response :=
| RefreshDone (ok : bool)
| DebugState (hasRules : bool) (state : RefreshState)
             (lastUpdated : option Z) (hash : option string)
| UnknownType (error : string).

(** The listener, for a message whose [type] is [msgType] ([None] when the
    message or its type is missing); the [switch] compares the type with
    each case in turn.  The answer is [None] when [sendResponse] is not
    called. *)
Definition onMessage (i : Inputs) (msgType : option string) (w : World)
  : World * option Response :=
  let type := default ""%string msgType in
  if JS.truthy msgType && String.eqb type "NUDELINK_REFRESH_RULES" then
    let '(w', ok) := ensureFreshRulesIfChanged i w in
    (w', Some (RefreshDone ok))
  else if JS.truthy msgType && String.eqb type "NUDELINK_DEBUG_STATE" then
    let payload := loadRules w in
    (w, Some (DebugState
                (match payload with
                 | Some p => Json_truthy (rules p)
                 | None => false
                 end)
                (loadState w)
                (match payload with
                 | Some p => if ts p =? 0 then None else Some (ts p)
                 | None => None
                 end)
                (match payload with
                 | Some p => if String.eqb (hash p) "" then None else Some (hash p)
                 | None => None
                 end)))
  else if JS.truthy msgType
  then (w, Some (UnknownType ("Unknown message type: " ++ type)))
  else (w, None).

End Refresh.

(** [loadClearUrlsRules] of clearurls-apply.js: the cached rules, or null. *)
Definition loadClearUrlsRules (w : World) : option Json :=
  match storedRules w with
  | Some payload => if Json_truthy (rules payload) then Some (rules payload) else None
  | None => None
  end.

End Background.

(** ** The popups *)

(** The content of the popup: the URL field, the status line and its
    class, and the two check boxes. *)
Record PopupView := mkPopupView {
  urlField : string;
  statusText : string;
  statusClass : string;
  removeReferralChecked : bool;
  cleanHashChecked : bool
}.

(** The stored options, with their defaults filled in. *)
Record PopupOptions := mkPopupOptions {
  optRemoveReferral : bool;
  optCleanHash : bool
}.

(** *** The popup of the rule interpreter *)

Module RulesPopup.
Section Popup.
Context `{Platform}.

(** [(text, good = false) => ...]: the status line and its class. *)
Definition setStatus (text : string) (good : bool) : string * string :=
  (text, if good then "muted good" else "muted").

Definition maybeStripHash (inputUrl : string) (cleanHash : bool) : string :=
  if cleanHash then inputUrl
  else match URL_new inputUrl with
       | Some u => URL_toString (URL_set_hash u "")
       | None => inputUrl
       end.

(** [refreshPopup], given what the awaited calls return: the options, the
    cached rules as [loadClearUrlsRules] returns them ([None] for null), the
    URL of the active tab (empty when there is none), and whether the page
    has the "Update rules" button. *)
Definition refreshPopup (opts : PopupOptions) (rules : option Json)
    (original : string) (updateRulesButton : bool) : PopupView :=
  let view field status :=
    mkPopupView field (fst status) (snd status)
                (optRemoveReferral opts) (optCleanHash opts) in
  let notLoaded :=
    view original
         (setStatus
            (if updateRulesButton
             then "Rules not loaded yet. Click ‘Update rules’, then Refresh."
             else "Rules not loaded yet. Please wait and reopen the popup.")
            false) in
  match rules with
  | Some rules =>
      if negb (Json_truthy rules) then notLoaded
      else if String.eqb original ""
      then view "" (setStatus "No active tab URL found." false)
      else
        let prepped := maybeStripHash original (optCleanHash opts) in
        let result := applyClearUrls prepped (toRulesJson rules)
                        (mkApplyOptions (negb (optRemoveReferral opts))) in
        if JS.truthy (error result)
        then view original
                  (setStatus ("Could not clean — " ++ default "" (error result)) false)
        else view (url result)
                  (setStatus (if changed result then "Cleaned ✓"
                              else "Already clean ✨") true)
  | None => notLoaded
  end.

End Popup.
End RulesPopup.

(** *** The popup of the heuristic cleaner *)

Module HeuristicPopup.
Section Popup.
Context `{Platform}.
Variable BAD_PARAMS_LIST : list string.
Variable REFERRAL_PARAMS_LIST : list string.

Definition getCleanedUrl (url : string) (options : PopupOptions) : CleanResult :=
  let inputUrl :=
    if negb (optCleanHash options) then
      match URL_new url with
      | Some urlObj => URL_toString (URL_set_hash urlObj "")
      | None => url
      end
    else url in
  stripTracking BAD_PARAMS_LIST REFERRAL_PARAMS_LIST
    (mkStripOptions [] [] (optRemoveReferral options)) inputUrl.

(** [[a, b].filter(Boolean).join(" · ")] *)
Definition joinStatus (parts : list (option string)) : string :=
  String.concat " · " (omap (fun p => if JS.truthy p then p else None) parts).

(** [updatePopupUI]: the URL field, the status line and its class. *)
Definition updatePopupUI (cleanedUrl originalUrl : string) (wasChanged : bool)
    (redirectorSource error : option string) : string * string * string :=
  if JS.truthy error then (originalUrl, "Invalid URL", "muted")
  else (cleanedUrl,
        joinStatus
          [ (if JS.truthy redirectorSource
             then Some ("Unwrapped from " ++ default "" redirectorSource)
             else None);
            Some (if wasChanged then "Cleaned ✓" else "Already clean ✨") ]%string,
        "muted good").

(** [refreshPopup], given the options and the URL of the active tab. *)
Definition refreshPopup (options : PopupOptions) (originalUrl : string)
  : PopupView :=
  let r := getCleanedUrl originalUrl options in
  let '(field, text, class) :=
    updatePopupUI (url r) originalUrl (changed r) (unwrappedFrom r) (error r) in
  mkPopupView field text class (optRemoveReferral options) (optCleanHash options).

End Popup.
End HeuristicPopup.

(** ** Notions used by the statements on the refresh *)

Section RefreshNotions.
Context `{Platform}.
Import Background.

(** The index that the next failure starts from. *)
Definition currentIndex (w : World) : Z :=
  default 0%Z (backoffIndex (loadState w)).

(** The states that differ from [w] at most in the retry alarm and the
    backoff index. *)
Definition sameCacheAndDaily (w w' : World) : Prop :=
  storedRules w' = storedRules w
  /\ alarms w' !! DAILY_ALARM = alarms w !! DAILY_ALARM.

(** The run stored this payload: the two fetches succeeded, the rules text
    has the digest named by the hash file and parses to the stored rules. *)
Definition storedFresh (digest : string -> list Byte.byte)
    (JSON_parse : string -> option Json) (i : Inputs) (p : Payload) : Prop :=
  exists text raw,
    fetchText i RULES_URL = Some text
    /\ fetchText i HASH_URL = Some raw
    /\ sha256Hex digest text = String_toLowerCase (String_trim raw)
    /\ JSON_parse text = Some (rules p)
    /\ ts p = now i
    /\ hash p = sha256Hex digest text.

(** What a refresh that started in [w] with the inputs [i] leaves: the
    state [fst after], given its verdict [snd after]. *)
Definition refreshOutcome (i : Inputs) (w : World) (after : World * bool) : Prop :=
  if snd after
  then storedState (fst after) = Some (mkRefreshState (Some 0%Z))
       /\ alarms (fst after) = <[DAILY_ALARM := Periodic 1440]> (alarms w)
       /\ alarms (fst after) !! RETRY_ALARM = alarms w !! RETRY_ALARM
  else storedRules (fst after) = storedRules w
       /\ storedState (fst after)
          = Some (mkRefreshState
                    (Some (Z.min (Z.min (currentIndex w) 4 + 1) 4)))
       /\ alarms (fst after)
          = <[RETRY_ALARM :=
                OneShot (option_map (fun m => (now i + m * 60000)%Z)
                           (at_index RETRY_DELAYS_MIN (Z.min (currentIndex w) 4)))]>
              (alarms w)
       /\ alarms (fst after) !! DAILY_ALARM = alarms w !! DAILY_ALARM.

Fixpoint all_space (s : string) : bool :=
  match s with
  | EmptyString => true
  | String c t => JS.is_space c && all_space t
  end.

Fixpoint no_space (s : string) : bool :=
  match s with
  | EmptyString => true
  | String c t => negb (JS.is_space c) && no_space t
  end.

End RefreshNotions.

(** ** Sample data for the further examples *)

Module MoreSamples.

Definition providersObj : list (string * Provider) :=
  [("globalRules", Samples.globalRules); ("outlink", Samples.outlink)]%string.

(** The URL object of an address in upper case. *)
Definition upperInput : string := "HTTPS://Example.COM/path".

Definition upperUrl : URL :=
  mkURL "https://example.com" "example.com" "/path" None None [].

(** An address with a tracking parameter and another one. *)
Definition trackedInput : string := "https://example.com/path?utm_source=a&x=1".

Definition trackedUrl : URL :=
  mkURL "https://example.com" "example.com" "/path"
        (Some "utm_source=a&x=1"%string) None
        [("utm_source", "a"); ("x", "1")]%string.

(** A provider that spares the pages under /keep. *)
Definition sparing : Provider :=
  mkProvider ".*" (Some ["^https://example\.com/keep"]%string) None
             (Some ["gclid"]%string) None None.

Definition keepUrl : URL :=
  mkURL "https://example.com" "example.com" "/keep"
        (Some "gclid=1"%string) None [("gclid", "1")]%string.

Definition sparingPattern : Reference.compiled :=
  Eval vm_compute in
    default (Reference.mkCompiled Reference.Eps false false)
            (Reference.regexp_new "^https://example\.com/keep" "i").

(** A two-byte stand-in for the digest, a parser that knows one text, and
    a network that serves that text with its digest in upper case, after a
    space and before a line feed. *)
Definition digest (text : string) : list Byte.byte := [Byte.xab; Byte.x01].

Definition JSON_parse (text : string) : option Json :=
  if String.eqb text "{}" then Some (JsonObject None) else None.

Definition hashFile : string :=
  (" " ++ "AB01" ++ String (ascii_of_nat 10) EmptyString)%string.

Definition online : Background.Inputs :=
  Background.mkInputs
    (fun u => if String.eqb u Background.RULES_URL then Some "{}"%string
              else Some hashFile)
    1000%Z.

(** Later on, the rules file cannot be fetched any more. *)
Definition rulesDown : Background.Inputs :=
  Background.mkInputs
    (fun u => if String.eqb u Background.RULES_URL then None else Some hashFile)
    2000%Z.

Definition emptyWorld : Background.World := Background.mkWorld None None ∅.

End MoreSamples.

(** * Verification *)

(** ** The loops that delete query keys *)

Section DeleteLoops.
Context `{Platform}.
Variable rm : string -> bool.

Local Abbreviation deleteKey := (deleteKey rm).
Local Abbreviation deleteParam := (deleteParam rm).
Local Abbreviation survives := (survives rm).

Lemma filter_filter {A} (f g : A -> bool) (l : list A) :
  List.filter f (List.filter g l) = List.filter (fun x => g x && f x) l.
Proof.
  induction l as [|x l IH]; simpl; [reflexivity|].
  destruct (g x); simpl; [destruct (f x)|]; rewrite IH; reflexivity.
Qed.

Lemma survives_cons (k : string) (ks : list string) (p : string * string) :
  rm k = true ->
  negb (String.eqb (fst p) k) && survives ks p = survives (k :: ks) p.
Proof.
  intros Hk. unfold survives. simpl.
  destruct (String.eqb (fst p) k) eqn:E; simpl.
  - apply String.eqb_eq in E. rewrite E, Hk. reflexivity.
  - reflexivity.
Qed.

Lemma survives_cons_keep (k : string) (ks : list string) (p : string * string) :
  rm k = false -> survives ks p = survives (k :: ks) p.
Proof.
  intros Hk. unfold survives. simpl.
  destruct (String.eqb (fst p) k) eqn:E; simpl; [|reflexivity].
  apply String.eqb_eq in E. rewrite E, Hk. reflexivity.
Qed.

Lemma deleteParam_loop (ks : list string) (st : list (string * string) * bool) :
  fold_left deleteParam ks st
  = (List.filter (survives ks) (fst st), snd st || existsb rm ks).
Proof.
  revert st. induction ks as [|k ks IH]; intros [l c]; simpl.
  - rewrite orb_false_r. f_equal. unfold survives. simpl.
    induction l as [|p l IHl]; simpl; [reflexivity|].
    rewrite andb_false_r. simpl. f_equal. exact IHl.
  - rewrite IH. unfold deleteParam. destruct (rm k) eqn:Hk; simpl.
    + rewrite orb_true_r. f_equal. unfold params_delete.
      rewrite filter_filter. apply filter_ext. intros p.
      apply survives_cons, Hk.
    + f_equal. apply filter_ext. intros p. apply survives_cons_keep, Hk.
Qed.

(** The loop on a URL object does to its parameters what the loop on a
    detached list does, and leaves every other component but the query. *)
Lemma deleteKey_loop (ks : list string) (st : URL * bool) :
  let st' := fold_left deleteKey ks st in
  (searchParams (fst st'), snd st')
  = fold_left deleteParam ks (searchParams (fst st), snd st)
  /\ prefix (fst st') = prefix (fst st)
  /\ hostname (fst st') = hostname (fst st)
  /\ pathname (fst st') = pathname (fst st)
  /\ fragment (fst st') = fragment (fst st).
Proof.
  revert st. induction ks as [|k ks IH]; intros [u c]; cbn [fold_left].
  - repeat split.
  - destruct (rm k) eqn:Hk.
    + replace (deleteKey (u, c) k) with (searchParams_delete u k, true)
        by (unfold deleteKey; rewrite Hk; reflexivity).
      replace (deleteParam (searchParams (u, c).1, (u, c).2) k)
        with (params_delete (searchParams u) k, true)
        by (unfold deleteParam; rewrite Hk; reflexivity).
      apply (IH (searchParams_delete u k, true)).
    + replace (deleteKey (u, c) k) with (u, c)
        by (unfold deleteKey; rewrite Hk; reflexivity).
      replace (deleteParam (searchParams (u, c).1, (u, c).2) k)
        with (searchParams u, c)
        by (unfold deleteParam; rewrite Hk; reflexivity).
      apply (IH (u, c)).
Qed.

(** When no key of the snapshot is selected the loop does nothing. *)
Lemma deleteKey_loop_id (ks : list string) (st : URL * bool) :
  existsb rm ks = false -> fold_left deleteKey ks st = st.
Proof.
  revert st. induction ks as [|k ks IH]; intros st; simpl; [reflexivity|].
  intros E. apply orb_false_elim in E as [Hk Hks].
  replace (deleteKey st k) with st by (unfold deleteKey; rewrite Hk; reflexivity).
  apply IH, Hks.
Qed.

Lemma deleteParam_loop_id (ks : list string) (st : list (string * string) * bool) :
  existsb rm ks = false -> fold_left deleteParam ks st = st.
Proof.
  revert st. induction ks as [|k ks IH]; intros st; simpl; [reflexivity|].
  intros E. apply orb_false_elim in E as [Hk Hks].
  replace (deleteParam st k) with st by (unfold deleteParam; rewrite Hk; reflexivity).
  apply IH, Hks.
Qed.

(** On the snapshot of its own keys, the loop keeps exactly the pairs whose
    key is not selected. *)
Lemma survives_own_keys (l : list (string * string)) :
  List.filter (survives (params_keys l)) l
  = List.filter (fun p => negb (rm (fst p))) l.
Proof.
  apply filter_ext_in. intros p Hp. unfold survives.
  assert (E : existsb (String.eqb (fst p)) (params_keys l) = true).
  { apply existsb_exists. exists (fst p). split.
    - apply in_map, Hp.
    - apply String.eqb_refl. }
  rewrite E, andb_true_r. reflexivity.
Qed.

Lemma kept_not_selected (l : list (string * string)) :
  existsb rm (params_keys (List.filter (fun p => negb (rm (fst p))) l)) = false.
Proof.
  induction l as [|p l IH]; simpl; [reflexivity|].
  destruct (rm (fst p)) eqn:E; simpl; [exact IH|].
  rewrite E. exact IH.
Qed.

End DeleteLoops.

(** ** String lemmas *)

Lemma substring_whole (p : string) : substring 0 (String.length p) p = p.
Proof. induction p as [|c p IH]; simpl; [reflexivity|]. rewrite IH. reflexivity. Qed.

Lemma substring_app_suffix (pre p : string) :
  substring (String.length pre) (String.length p) (pre ++ p) = p.
Proof.
  induction pre as [|c pre IH]; simpl; [apply substring_whole | exact IH].
Qed.

Lemma substring_split (n : nat) (s : string) :
  n <= String.length s ->
  s = (substring 0 n s ++ substring n (String.length s - n) s)%string.
Proof.
  revert s. induction n as [|n IH]; intros s Hn.
  - rewrite Nat.sub_0_r. simpl.
    replace (substring 0 0 s) with ""%string by (destruct s; reflexivity).
    simpl. symmetry. apply substring_whole.
  - destruct s as [|c s]; simpl in *; [lia|].
    change (String c s = String c (substring 0 n s
                                   ++ substring n (String.length s - n) s)%string).
    f_equal. apply IH. lia.
Qed.

Lemma length_app_string (a b : string) :
  String.length (a ++ b) = String.length a + String.length b.
Proof. induction a as [|c a IH]; simpl; [reflexivity|]. rewrite IH. reflexivity. Qed.

(** [endsWith] decides being a suffix. *)
Lemma endsWith_spec (p s : string) :
  JS.endsWith p s = true <-> exists pre, s = (pre ++ p)%string.
Proof.
  unfold JS.endsWith. rewrite andb_true_iff, Nat.leb_le, String.eqb_eq. split.
  - intros [Hle E]. exists (substring 0 (String.length s - String.length p) s).
    pose proof (substring_split (String.length s - String.length p) s) as S0.
    replace (String.length s - (String.length s - String.length p))
      with (String.length p) in S0 by lia.
    rewrite E in S0. apply S0. lia.
  - intros [pre ->]. rewrite length_app_string. split; [lia|].
    replace (String.length pre + String.length p - String.length p)
      with (String.length pre) by lia.
    apply substring_app_suffix.
Qed.

Lemma truthy_spec (v : option string) :
  JS.truthy v = true <-> exists s, v = Some s /\ s <> ""%string.
Proof.
  split.
  - destruct v as [[|c s]|]; simpl; try discriminate.
    intros _. exists (String c s). split; [reflexivity|discriminate].
  - intros (s & -> & Hs). destruct s; [contradiction|reflexivity].
Qed.

(** ** The heuristic cleaner *)

Section StripTrackingProperties.
Context `{Platform}.
Variable BAD_PARAMS_LIST : list string.
Variable REFERRAL_PARAMS_LIST : list string.
Variable opts : StripOptions.

Local Abbreviation shouldRemove :=
  (shouldRemove BAD_PARAMS_LIST REFERRAL_PARAMS_LIST opts).
Local Abbreviation removeQueryParams :=
  (removeQueryParams BAD_PARAMS_LIST REFERRAL_PARAMS_LIST opts).
Local Abbreviation cleanHash :=
  (cleanHash BAD_PARAMS_LIST REFERRAL_PARAMS_LIST opts).
Local Abbreviation stripTracking :=
  (stripTracking BAD_PARAMS_LIST REFERRAL_PARAMS_LIST opts).
Local Abbreviation cleaned := (cleaned BAD_PARAMS_LIST REFERRAL_PARAMS_LIST opts).

(** A key on the keep list is never selected. *)
Lemma shouldRemove_keep (key : string) :
  String_toLowerCase key ∈ keep opts -> shouldRemove key = false.
Proof.
  intros Hk. unfold shouldRemove.
  rewrite bool_decide_eq_true_2 by exact Hk. reflexivity.
Qed.

(** A key with the utm_ prefix that is not on the keep list is selected. *)
Lemma shouldRemove_utm (key : string) :
  JS.startsWith "utm_" (String_toLowerCase key) = true ->
  String_toLowerCase key ∉ keep opts ->
  shouldRemove key = true.
Proof.
  intros Hu Hk. unfold shouldRemove.
  rewrite bool_decide_eq_false_2 by exact Hk. rewrite Hu. reflexivity.
Qed.

(** What the query loop leaves. *)
Lemma removeQueryParams_spec (st : URL * bool) :
  let st' := removeQueryParams st in
  searchParams (fst st')
  = List.filter (fun p => negb (shouldRemove (fst p))) (searchParams (fst st))
  /\ snd st' = snd st || existsb shouldRemove (params_keys (searchParams (fst st)))
  /\ prefix (fst st') = prefix (fst st)
  /\ hostname (fst st') = hostname (fst st)
  /\ pathname (fst st') = pathname (fst st)
  /\ fragment (fst st') = fragment (fst st).
Proof.
  pose proof (deleteKey_loop shouldRemove (params_keys (searchParams (fst st))) st)
    as (E & Hp & Hh & Hn & Hf).
  rewrite deleteParam_loop in E. simpl in E.
  rewrite survives_own_keys in E. injection E as E1 E2.
  repeat split; assumption.
Qed.

(** The hash block touches neither the parameters nor the query. *)
Lemma cleanHash_params (st : URL * bool) :
  searchParams (fst (cleanHash st)) = searchParams (fst st).
Proof.
  unfold cleanHash.
  destruct (_ && _); [|reflexivity].
  destruct (fold_left _ _ _) as [hp [|]]; reflexivity.
Qed.

(** The hash block in closed form: it acts only on a fragment that is not
    empty, contains "=" and, read as parameters, holds a selected key; the
    fragment then becomes the serialisation of the parameters that are not
    selected, and disappears when none is left. *)
Lemma cleanHash_closed (u : URL) (c : bool) :
  let hashParams := URLSearchParams_new (JS.dropHashMark (URL_hash u)) in
  let kept := List.filter (fun p => negb (shouldRemove (fst p))) hashParams in
  cleanHash (u, c)
  = if negb (String.eqb (URL_hash u) "") && JS.includes "=" (URL_hash u)
       && existsb shouldRemove (params_keys hashParams)
    then (mkURL (prefix u) (hostname u) (pathname u) (query u)
                (if String.eqb (urlencoded_serialize kept) "" then None
                 else Some (fragment_encode (urlencoded_serialize kept)))
                (searchParams u), true)
    else (u, c).
Proof.
  intros hashParams kept. unfold cleanHash. cbn [fst].
  destruct (negb (String.eqb (URL_hash u) "") && JS.includes "=" (URL_hash u));
    [|reflexivity].
  cbn [andb].
  change (fold_left (removeHashKey BAD_PARAMS_LIST REFERRAL_PARAMS_LIST opts))
    with (fold_left (deleteParam shouldRemove)).
  fold hashParams. rewrite deleteParam_loop. cbn [fst snd orb].
  rewrite survives_own_keys. fold kept.
  destruct (existsb shouldRemove (params_keys hashParams)); [|reflexivity].
  f_equal. unfold URL_set_hash.
  destruct (String.eqb (urlencoded_serialize kept) "") eqn:E; [reflexivity|].
  reflexivity.
Qed.

(** The serialisation reads the scheme and authority, the path, the
    parameters and the fragment of a URL object, and nothing else. *)
Lemma normalizeUrl_parts (u u' : URL) :
  prefix u = prefix u' -> pathname u = pathname u' ->
  fragment u = fragment u' -> searchParams u = searchParams u' ->
  normalizeUrl u = normalizeUrl u'.
Proof.
  intros Hp Hn Hf Hs. unfold normalizeUrl, normalizeSearch. rewrite Hs.
  destruct (String.eqb (urlencoded_serialize (searchParams u')) "");
    unfold URL_set_search; cbn [String.eqb Ascii.eqb]; unfold URL_toString;
    cbn [prefix pathname query fragment]; rewrite Hp, Hn, Hf; reflexivity.
Qed.

Lemma stripTracking_cleaned (input : string) (urlObj : URL) :
  URL_new (fst (unwrapKnownRedirectors (String_trim input))) = Some urlObj ->
  let from := snd (unwrapKnownRedirectors (String_trim input)) in
  stripTracking input
  = mkResult (normalizeUrl (fst (cleaned urlObj (JS.truthy from))))
             (snd (cleaned urlObj (JS.truthy from)))
             (if JS.truthy from then from else None) None.
Proof.
  intros E. unfold stripTracking. rewrite E. reflexivity.
Qed.

Lemma cleaned_params (urlObj : URL) (b : bool) :
  searchParams (fst (cleaned urlObj b))
  = List.filter (fun p => negb (shouldRemove (fst p))) (searchParams urlObj).
Proof.
  unfold cleaned. rewrite cleanHash_params.
  apply (removeQueryParams_spec (urlObj, b)).
Qed.

(** When nothing was unwrapped, the raw URL is the trimmed input. *)
Lemma unwrap_none (urlStr : string) :
  JS.truthy (snd (unwrapKnownRedirectors urlStr)) = false ->
  fst (unwrapKnownRedirectors urlStr) = urlStr.
Proof.
  unfold unwrapKnownRedirectors.
  destruct (URL_new urlStr); [|reflexivity].
  repeat (destruct (_ && _); [discriminate|]). reflexivity.
Qed.

(** What the cleaner returns, in closed form. *)
Lemma cleaned_closed (urlObj : URL) (b : bool) :
  normalizeUrl (fst (cleaned urlObj b))
  = normalizeUrl (strippedUrl BAD_PARAMS_LIST REFERRAL_PARAMS_LIST opts urlObj).
Proof.
  unfold cleaned.
  destruct (removeQueryParams_spec (urlObj, b)) as (Hs & _ & Hp & Hh & Hn & Hf).
  cbn [fst snd] in Hs, Hp, Hh, Hn, Hf.
  destruct (removeQueryParams (urlObj, b)) as [u1 c1]. cbn [fst snd] in *.
  rewrite cleanHash_closed.
  assert (Hhash : URL_hash u1 = URL_hash urlObj)
    by (unfold URL_hash; rewrite Hf; reflexivity).
  rewrite Hhash. unfold strippedUrl, strippedFragment, keptParams.
  destruct (negb (String.eqb (URL_hash urlObj) "") && JS.includes "=" (URL_hash urlObj)
            && existsb shouldRemove
                 (params_keys (URLSearchParams_new (JS.dropHashMark (URL_hash urlObj)))));
    cbn [fst]; apply normalizeUrl_parts; cbn [prefix pathname fragment searchParams];
    congruence.
Qed.

Lemma stripTracking_closed (input : string) (urlObj : URL) :
  URL_new (fst (unwrapKnownRedirectors (String_trim input))) = Some urlObj ->
  url (stripTracking input)
  = normalizeUrl (strippedUrl BAD_PARAMS_LIST REFERRAL_PARAMS_LIST opts urlObj)
  /\ error (stripTracking input) = None.
Proof.
  intros E. rewrite (stripTracking_cleaned input urlObj E). cbn [url error].
  split; [apply cleaned_closed|reflexivity].
Qed.

(** X22 -- no key with the utm_ prefix that is not kept is left when the
    cleaner cleans.  Whatever the static tables and the options, when the
    raw URL (the trimmed input, or the target of the redirector it wraps)
    parses to [urlObj], the result has no error and is the serialisation of
    [strippedUrl urlObj]: the parsed URL without the pairs whose key is
    selected.  No key that starts with utm_ once lower-cased and is not in
    keepParams is among its parameters. *)
Theorem utm_prefix_universality (input : string) (urlObj : URL) :
  URL_new (fst (unwrapKnownRedirectors (String_trim input))) = Some urlObj ->
  let final := strippedUrl BAD_PARAMS_LIST REFERRAL_PARAMS_LIST opts urlObj in
  url (stripTracking input) = normalizeUrl final
  /\ error (stripTracking input) = None
  /\ forall key : string,
       JS.startsWith "utm_" (String_toLowerCase key) = true ->
       String_toLowerCase key ∉ keep opts ->
       ~ In key (params_keys (searchParams final)).
Proof.
  intros E final. destruct (stripTracking_closed input urlObj E) as [Hu He].
  split; [exact Hu|]. split; [exact He|].
  intros key Hu' Hk Hin. unfold final, strippedUrl, keptParams in Hin.
  cbn [searchParams] in Hin.
  apply in_map_iff in Hin as ([k v] & <- & Hin).
  apply filter_In in Hin as [_ Hin]. simpl in Hin.
  rewrite (shouldRemove_utm k Hu' Hk) in Hin. discriminate.
Qed.

(** C6 (amended) -- keep-list precedence in the heuristic cleaner.  When
    the raw URL parses to [urlObj] (it is the trimmed input itself when no
    redirector was unwrapped), the result is the serialisation of
    [strippedUrl urlObj], and the pairs whose lower-cased key is in
    keepParams are in its parameters exactly as they were parsed: the same
    pairs, in the same order, as often. *)
Theorem keep_list_precedence (input : string) (urlObj : URL) :
  URL_new (fst (unwrapKnownRedirectors (String_trim input))) = Some urlObj ->
  let final := strippedUrl BAD_PARAMS_LIST REFERRAL_PARAMS_LIST opts urlObj in
  let kept (p : string * string) :=
    bool_decide (String_toLowerCase (fst p) ∈ keep opts) in
  url (stripTracking input) = normalizeUrl final
  /\ (unwrappedFrom (stripTracking input) = None ->
      URL_new (String_trim input) = Some urlObj)
  /\ List.filter kept (searchParams final) = List.filter kept (searchParams urlObj)
  /\ (forall key value : string,
        String_toLowerCase key ∈ keep opts ->
        In (key, value) (searchParams final)
        <-> In (key, value) (searchParams urlObj))
  /\ (forall key : string,
        String_toLowerCase key ∈ keep opts ->
        In key (params_keys (searchParams final))
        <-> In key (params_keys (searchParams urlObj))).
Proof.
  intros E final kept.
  destruct (stripTracking_closed input urlObj E) as [Hu _].
  assert (Hpair : forall key value : string,
             String_toLowerCase key ∈ keep opts ->
             In (key, value) (searchParams final)
             <-> In (key, value) (searchParams urlObj)).
  { intros key value Hk. unfold final, strippedUrl, keptParams.
    cbn [searchParams]. rewrite filter_In. simpl.
    rewrite (shouldRemove_keep key Hk). simpl. tauto. }
  split; [exact Hu|]. split; [|split; [|split; [exact Hpair|]]].
  - intros Hnone. rewrite <- E. f_equal. symmetry. apply unwrap_none.
    rewrite (stripTracking_cleaned input urlObj E) in Hnone.
    cbn [unwrappedFrom] in Hnone.
    destruct (JS.truthy _) eqn:T; [|reflexivity].
    apply truthy_spec in T as (s & Es & _). rewrite Es in Hnone. discriminate.
  - unfold final, strippedUrl, keptParams. cbn [searchParams].
    rewrite filter_filter. apply filter_ext. intros [k v]. unfold kept. cbn [fst].
    destruct (bool_decide (String_toLowerCase k ∈ keep opts)) eqn:K;
      [|apply andb_false_r].
    apply bool_decide_eq_true in K. rewrite (shouldRemove_keep k K). reflexivity.
  - intros key Hk. unfold params_keys. rewrite !in_map_iff. split.
    + intros ([k v] & Ek & Hin). simpl in Ek. subst k.
      exists (key, v). split; [reflexivity|]. apply (Hpair key v Hk), Hin.
    + intros ([k v] & Ek & Hin). simpl in Ek. subst k.
      exists (key, v). split; [reflexivity|]. apply (Hpair key v Hk), Hin.
Qed.

(** *** Cleaning a second time *)

Lemma removeQueryParams_again (st : URL * bool) :
  let st' := removeQueryParams st in
  removeQueryParams (fst st', false) = (fst st', false).
Proof.
  intros st'. apply (deleteKey_loop_id shouldRemove). cbn [fst].
  unfold st'. destruct (removeQueryParams_spec st) as (E & _). rewrite E.
  apply kept_not_selected.
Qed.

Lemma URL_set_search_same (u u' : URL) (v : string) :
  prefix u = prefix u' -> hostname u = hostname u' ->
  pathname u = pathname u' -> fragment u = fragment u' ->
  URL_set_search u v = URL_set_search u' v.
Proof. unfold URL_set_search. intros -> -> -> ->. reflexivity. Qed.

Lemma normalizeSearch_again (u : URL) :
  searchParams (normalizeSearch u) = searchParams u ->
  normalizeSearch (normalizeSearch u) = normalizeSearch u.
Proof.
  intros E. unfold normalizeSearch at 1. rewrite E.
  unfold normalizeSearch. apply URL_set_search_same;
    unfold URL_set_search; destruct (String.eqb _ _); reflexivity.
Qed.

Lemma cleanHash_nothing (u : URL) (c : bool) :
  existsb shouldRemove
    (params_keys (URLSearchParams_new (JS.dropHashMark (URL_hash u)))) = false ->
  cleanHash (u, c) = (u, c).
Proof.
  intros E. unfold cleanHash. cbn [fst].
  destruct (_ && _); [|reflexivity].
  change (fold_left (removeHashKey BAD_PARAMS_LIST REFERRAL_PARAMS_LIST opts))
    with (fold_left (deleteParam shouldRemove)).
  rewrite (deleteParam_loop_id shouldRemove _ _ E). reflexivity.
Qed.

(** The heuristic cleaner run on its own result, when that result is not a
    redirector link and reads back as the URL object it was written from. *)
Lemma stripTracking_again (input : string) (urlObj : URL) :
  URL_new (fst (unwrapKnownRedirectors (String_trim input))) = Some urlObj ->
  let final :=
    fst (cleaned urlObj (JS.truthy (snd (unwrapKnownRedirectors (String_trim input))))) in
  let out := url (stripTracking input) in
  URL_new (String_trim out) = Some (normalizeSearch final) ->
  JS.truthy (snd (unwrapKnownRedirectors (String_trim out))) = false ->
  searchParams (normalizeSearch final) = searchParams final ->
  existsb shouldRemove
    (params_keys (URLSearchParams_new
                    (JS.dropHashMark (URL_hash (normalizeSearch final))))) = false ->
  stripTracking out = mkResult out false None None.
Proof.
  intros E final out Hparse Hplain Hparams Hhash.
  assert (Eout : out = normalizeUrl final).
  { unfold out. rewrite (stripTracking_cleaned input urlObj E). reflexivity. }
  assert (E2 : URL_new (fst (unwrapKnownRedirectors (String_trim out)))
               = Some (normalizeSearch final)).
  { rewrite (unwrap_none _ Hplain). exact Hparse. }
  rewrite (stripTracking_cleaned out _ E2). cbv zeta. rewrite Hplain.
  assert (Eq : removeQueryParams (normalizeSearch final, false)
               = (normalizeSearch final, false)).
  { apply (deleteKey_loop_id shouldRemove). cbn [fst]. rewrite Hparams.
    unfold final. rewrite cleaned_params. apply kept_not_selected. }
  unfold cleaned. rewrite Eq, (cleanHash_nothing _ _ Hhash). cbn [fst snd].
  unfold normalizeUrl at 1. rewrite (normalizeSearch_again _ Hparams).
  fold (normalizeUrl final). rewrite <- Eout. reflexivity.
Qed.

End StripTrackingProperties.

(** ** The redirector rules *)

Section RedirectorRules.
Context `{Platform}.

Lemma truthy_default (v : option string) :
  JS.truthy v = true -> v = Some (default ""%string v).
Proof. destruct v as [[|c s]|]; simpl; try discriminate. reflexivity. Qed.

Lemma not_true_iff (b : bool) (P : Prop) : (b = true <-> P) -> (b = false <-> ~ P).
Proof. destruct b; intuition discriminate. Qed.

(** C8 (amended) -- the three rules, in the order Google, Facebook,
    Instagram.  Google needs the host suffix, the path /url and a non-empty
    url or q parameter; Facebook needs a non-empty u parameter and either
    the host l.facebook.com or the path /l.php (the host is not required
    when the path matches); Instagram needs the host suffix and a non-empty
    u parameter.  The first rule that matches gives the provider id and its
    parameter's value becomes the raw URL; when none matches the raw URL is
    returned as it is. *)
Theorem redirector_rules (urlStr : string) (u : URL) :
  URL_new urlStr = Some u ->
  let get := params_get (searchParams u) in
  let r := unwrapKnownRedirectors urlStr in
  let google :=
    ((exists pre, hostname u = (pre ++ "google.com")%string)
     \/ (exists pre, hostname u = (pre ++ "google.com.au")%string))
    /\ pathname u = "/url"%string
    /\ (exists v, JS.or_else (get "url"%string) (get "q"%string) = Some v
                  /\ v <> ""%string) in
  let facebook :=
    (hostname u = "l.facebook.com"%string \/ pathname u = "/l.php"%string)
    /\ (exists v, get "u"%string = Some v /\ v <> ""%string) in
  let instagram :=
    (exists pre, hostname u = (pre ++ "instagram.com")%string)
    /\ (exists v, get "u"%string = Some v /\ v <> ""%string) in
  (snd r = Some "google"%string <-> google)
  /\ (snd r = Some "facebook"%string <-> ~ google /\ facebook)
  /\ (snd r = Some "instagram"%string <-> ~ google /\ ~ facebook /\ instagram)
  /\ (snd r = None <-> ~ google /\ ~ facebook /\ ~ instagram)
  /\ (snd r = Some "google"%string ->
      JS.or_else (get "url"%string) (get "q"%string) = Some (fst r))
  /\ (snd r = Some "facebook"%string \/ snd r = Some "instagram"%string ->
      get "u"%string = Some (fst r))
  /\ (snd r = None -> fst r = urlStr).
Proof.
  intros E get r google facebook instagram.
  set (bG := (JS.endsWith "google.com" (hostname u)
              || JS.endsWith "google.com.au" (hostname u))
             && String.eqb (pathname u) "/url"
             && JS.truthy (JS.or_else (get "url"%string) (get "q"%string))).
  set (bF := (String.eqb (hostname u) "l.facebook.com"
              || String.eqb (pathname u) "/l.php")
             && JS.truthy (get "u"%string)).
  set (bI := JS.endsWith "instagram.com" (hostname u) && JS.truthy (get "u"%string)).
  assert (HG : bG = true <-> google).
  { unfold bG, google.
    rewrite !andb_true_iff, orb_true_iff, !endsWith_spec, String.eqb_eq, truthy_spec.
    tauto. }
  assert (HF : bF = true <-> facebook).
  { unfold bF, facebook.
    rewrite andb_true_iff, orb_true_iff, !String.eqb_eq, truthy_spec. tauto. }
  assert (HI : bI = true <-> instagram).
  { unfold bI, instagram. rewrite andb_true_iff, endsWith_spec, truthy_spec. tauto. }
  assert (Er : r = if bG then (default ""%string (JS.or_else (get "url"%string)
                                                    (get "q"%string)),
                               Some "google"%string)
                   else if bF then (default ""%string (get "u"%string),
                                    Some "facebook"%string)
                   else if bI then (default ""%string (get "u"%string),
                                    Some "instagram"%string)
                   else (urlStr, None)).
  { unfold r, unwrapKnownRedirectors. rewrite E. reflexivity. }
  assert (TG : bG = true ->
               JS.or_else (get "url"%string) (get "q"%string)
               = Some (default ""%string (JS.or_else (get "url"%string)
                                                     (get "q"%string)))).
  { intros EG. apply truthy_default.
    unfold bG in EG. apply andb_true_iff in EG as [_ EG]. exact EG. }
  assert (TF : bF = true \/ bI = true ->
               get "u"%string = Some (default ""%string (get "u"%string))).
  { intros EF. apply truthy_default. unfold bF, bI in EF.
    destruct EF as [EF|EF]; apply andb_true_iff in EF as [_ EF]; exact EF. }
  apply not_true_iff in HG as HG'.
  apply not_true_iff in HF as HF'.
  apply not_true_iff in HI as HI'.
  clearbody google facebook instagram bG bF bI r.
  subst r.
  destruct bG; [|destruct bF; [|destruct bI]]; simpl;
    repeat match goal with |- _ /\ _ => split end;
    intuition (discriminate || auto).
Qed.

End RedirectorRules.

(** ** The rule interpreter *)

Section ApplyClearUrlsProperties.
Context `{Platform}.

(** C7 -- a ruleset that is null, not an object, or an object without
    providers gives the "Rules not available" result: the input string
    untouched and no change. *)
Theorem rules_unavailable (inputUrl : string) (o : ApplyOptions) :
  applyClearUrls inputUrl RulesNull o
  = mkResult inputUrl false None (Some RulesUnavailable)
  /\ applyClearUrls inputUrl (RulesObject None) o
     = mkResult inputUrl false None (Some RulesUnavailable)
  /\ applyClearUrls inputUrl RulesNotObject o
     = mkResult inputUrl false None (Some RulesUnavailable).
Proof. repeat split. Qed.

Lemma last_nonempty {A} (l : list A) (x d d' : A) :
  List.last (x :: l) d = List.last (x :: l) d'.
Proof.
  revert x. induction l as [|y l IH]; intros x; [reflexivity|].
  change (List.last (y :: l) d = List.last (y :: l) d'). apply IH.
Qed.

Lemma last_cons {A} (l : list A) (x d : A) :
  List.last (x :: l) d = List.last l x.
Proof. destruct l as [|y l]; [reflexivity|]. apply (last_nonempty l y d x). Qed.

Lemma last_app {A} (a b : list A) (d : A) :
  List.last (a ++ b) d = List.last b (List.last a d).
Proof.
  induction a as [|x a IH]; [reflexivity|].
  destruct a as [|y a].
  - destruct b as [|z b]; [reflexivity|].
    change (List.last (z :: b) d = List.last (z :: b) x). apply last_nonempty.
  - exact IH.
Qed.

Lemma nonempty_app {A} (a b : list A) :
  nonempty (a ++ b) = nonempty a || nonempty b.
Proof. destruct a; reflexivity. Qed.

Lemma redirectOne_target (s : string) (st : URL * bool) (redir : string) :
  redirectOne s st redir
  = match redirectTarget s redir with
    | Some w => (w, true)
    | None => st
    end.
Proof.
  unfold redirectOne, redirectTarget.
  destruct (safeRegExp redir "i") as [re|]; [|reflexivity].
  destruct (RegExp_exec1 re s) as [[|c t]|]; reflexivity.
Qed.

Lemma omap_cons_eq {A B} (f : A -> option B) (x : A) (l : list A) :
  omap f (x :: l)
  = match f x with Some y => y :: omap f l | None => omap f l end.
Proof. reflexivity. Qed.

Lemma redirections_loop (s : string) (rs : list string) (st : URL * bool) :
  fold_left (redirectOne s) rs st
  = (List.last (omap (redirectTarget s) rs) (fst st),
     snd st || nonempty (omap (redirectTarget s) rs)).
Proof.
  revert st. induction rs as [|r rs IH]; intros [w c].
  - simpl. rewrite orb_false_r. reflexivity.
  - cbn [fold_left]. rewrite IH, redirectOne_target, omap_cons_eq.
    destruct (redirectTarget s r) as [w'|]; cbn [fst snd]; [|reflexivity].
    rewrite last_cons. cbn [nonempty]. rewrite orb_true_r. reflexivity.
Qed.

Lemma redirectProvider_targets (s : string) (st : URL * bool) (p : Provider) :
  redirectProvider s st p
  = (List.last (redirectTargets s [p]) (fst st),
     snd st || nonempty (redirectTargets s [p])).
Proof.
  unfold redirectProvider, redirectTargets, providerActive. simpl.
  rewrite app_nil_r.
  destruct (safeRegExp (urlPattern p) "i") as [urlRe|];
    [|destruct st; simpl; rewrite orb_false_r; reflexivity].
  destruct (RegExp_test urlRe s); simpl;
    [|destruct st; simpl; rewrite orb_false_r; reflexivity].
  destruct (isExcepted p s); simpl;
    [destruct st; simpl; rewrite orb_false_r; reflexivity|].
  destruct (redirections p) as [rs|]; simpl.
  - apply redirections_loop.
  - destruct st; simpl; rewrite orb_false_r; reflexivity.
Qed.

Lemma redirectTargets_cons (s : string) (p : Provider) (ps : list Provider) :
  redirectTargets s (p :: ps) = redirectTargets s [p] ++ redirectTargets s ps.
Proof. unfold redirectTargets. simpl. rewrite app_nil_r. reflexivity. Qed.

Lemma providers_loop (s : string) (ps : list Provider) (st : URL * bool) :
  fold_left (redirectProvider s) ps st
  = (List.last (redirectTargets s ps) (fst st),
     snd st || nonempty (redirectTargets s ps)).
Proof.
  revert st. induction ps as [|p ps IH]; intros st.
  - destruct st; simpl. rewrite orb_false_r. reflexivity.
  - cbn [fold_left]. rewrite IH, (redirectTargets_cons s p ps).
    rewrite redirectProvider_targets.
    cbn [fst snd]. rewrite last_app, nonempty_app, orb_assoc. reflexivity.
Qed.

(** C1 (amended) -- the redirection pass is one forward sweep in which every
    pattern (provider patterns, exceptions and redirections) is tested on
    the serialisation of the URL parsed from the input, computed once before
    the loops.  Each redirection whose group 1 parses replaces the working
    URL, so the pass ends on the last target found on that one string (the
    input URL when there is none), and redirections do not chain. *)
Theorem redirection_single_sweep (providers : list Provider) (workingUrl : URL) :
  let targets := redirectTargets (URL_toString workingUrl) providers in
  redirectionPass providers workingUrl
  = (List.last targets workingUrl, nonempty targets).
Proof. unfold redirectionPass. rewrite providers_loop. reflexivity. Qed.

(** *** Parameter removal *)

Lemma classify_loop (entries : list string) (acc : gset string * list RegExp) :
  fold_left classifyEntry entries acc
  = (list_to_set (map String_toLowerCase (List.filter isPlainName entries)) ∪ fst acc,
     snd acc ++ omap (fun e => safeRegExp e "i")
                     (List.filter (fun e => negb (isPlainName e)) entries)).
Proof.
  revert acc. induction entries as [|e entries IH]; intros [ns rl].
  - simpl. rewrite app_nil_r, (left_id_L ∅ (∪)). reflexivity.
  - cbn [fold_left List.filter]. rewrite IH. unfold classifyEntry.
    destruct (isPlainName e); cbn [negb fst snd map].
    + f_equal. rewrite list_to_set_cons, (assoc_L (∪)).
      f_equal. apply (comm_L (∪)).
    + rewrite omap_cons_eq.
      destruct (safeRegExp e "i") as [re|]; cbn [fst snd]; [|reflexivity].
      rewrite <- app_assoc. reflexivity.
Qed.

Lemma no_meta_no_bracket (e : string) :
  hasMetaChar e = false -> JS.includes "[" e = false.
Proof.
  induction e as [|c e IH]; intros Hm; [reflexivity|].
  simpl in Hm. apply orb_false_elim in Hm as [Hc He].
  cbn [JS.includes JS.startsWith]. rewrite (IH He), andb_true_r, orb_false_r.
  destruct (Ascii.eqb "[" c) eqn:E; [|reflexivity].
  apply Ascii.eqb_eq in E. subst c. discriminate.
Qed.

Lemma isPlainName_spec (e : string) :
  isPlainName e = true
  <-> hasMetaChar e = false /\ JS.includes "=" e = false
      /\ JS.includes "\b" e = false.
Proof.
  unfold isPlainName. rewrite !andb_true_iff, !negb_true_iff. split.
  - tauto.
  - intros (Hm & He & Hb). repeat split; try assumption.
    apply no_meta_no_bracket, Hm.
Qed.

Lemma removes_spec (nameSet : gset string) (regexList : list RegExp) (key : string) :
  removes nameSet regexList key = true
  <-> String_toLowerCase key ∈ nameSet
      \/ exists re, In re regexList
                    /\ (RegExp_test re (String_toLowerCase key) = true
                        \/ RegExp_test re (String_toLowerCase key ++ "=") = true).
Proof.
  unfold removes. rewrite orb_true_iff, bool_decide_eq_true, existsb_exists.
  split; (intros [?|(re & ? & Hre)]; [left; assumption|right; exists re]).
  - apply orb_true_iff in Hre. tauto.
  - split; [assumption|]. apply orb_true_iff. tauto.
Qed.

Lemma removeKey_loop (nameSet : gset string) (regexList : list RegExp)
    (st : URL * bool) :
  searchParams (fst (fold_left (removeKey nameSet regexList)
                               (params_keys (searchParams (fst st))) st))
  = List.filter (fun p => negb (removes nameSet regexList (fst p)))
                (searchParams (fst st)).
Proof.
  pose proof (deleteKey_loop (removes nameSet regexList)
                (params_keys (searchParams (fst st))) st) as (E & _).
  rewrite deleteParam_loop, survives_own_keys in E. injection E as E _. exact E.
Qed.

Lemma removalProvider_active (o : ApplyOptions) (st : URL * bool) (p : Provider) :
  removalProvider o st p
  = if providerActive p (URL_toString (fst st))
    then fold_left applyRawRule (asList (rawRules p))
           (fold_left (removeKey (fst (classify (rawEntries o p)))
                                 (snd (classify (rawEntries o p))))
                      (params_keys (searchParams (fst st))) st)
    else st.
Proof.
  unfold removalProvider, providerActive.
  destruct (safeRegExp (urlPattern p) "i") as [urlRe|]; [|reflexivity].
  destruct (RegExp_test urlRe (URL_toString (fst st))); [|reflexivity].
  destruct (isExcepted p (URL_toString (fst st))); [reflexivity|].
  cbn [negb andb]. destruct (classify (rawEntries o p)) as [ns rl].
  cbn [fst snd]. destruct (rawRules p); reflexivity.
Qed.

(** C4 -- classification of the entries and removal of the keys.  For a
    provider that takes part, the entries are its rules followed, unless
    referrals are allowed, by its referralMarketing.  An entry with no regex
    metacharacter, no "=" and no "\b" goes, case-folded, into the set of
    names; every other entry is compiled with the i flag (and listed when it
    compiles).  The loop over the keys then deletes exactly the pairs whose
    case-folded key is in the set or is matched, alone or followed by "=",
    by one of the compiled patterns; the raw rules come after it. *)
Theorem parameter_removal_rule (o : ApplyOptions) (p : Provider) (st : URL * bool) :
  let entries := asList (rules p)
                 ++ (if allowReferral o then [] else asList (referralMarketing p)) in
  let nameSet := fst (classify entries) in
  let regexList := snd (classify entries) in
  let st' := fold_left (removeKey nameSet regexList)
                       (params_keys (searchParams (fst st))) st in
  removalProvider o st p
  = (if providerActive p (URL_toString (fst st))
     then fold_left applyRawRule (asList (rawRules p)) st'
     else st)
  /\ (forall e, isPlainName e = true
                <-> hasMetaChar e = false /\ JS.includes "=" e = false
                    /\ JS.includes "\b" e = false)
  /\ (forall name, name ∈ nameSet
                   <-> exists e, In e entries /\ isPlainName e = true
                                 /\ name = String_toLowerCase e)
  /\ regexList = omap (fun e => safeRegExp e "i")
                      (List.filter (fun e => negb (isPlainName e)) entries)
  /\ searchParams (fst st')
     = List.filter (fun p => negb (removes nameSet regexList (fst p)))
                   (searchParams (fst st))
  /\ forall key,
       In key (params_keys (searchParams (fst st')))
       <-> In key (params_keys (searchParams (fst st)))
           /\ ~ (String_toLowerCase key ∈ nameSet
                 \/ exists re, In re regexList
                      /\ (RegExp_test re (String_toLowerCase key) = true
                          \/ RegExp_test re (String_toLowerCase key ++ "=") = true)).
Proof.
  intros entries nameSet regexList st'.
  assert (Ee : entries = rawEntries o p).
  { unfold entries, rawEntries. destruct (allowReferral o); reflexivity. }
  split; [rewrite removalProvider_active; unfold st', nameSet, regexList;
          rewrite Ee; reflexivity|].
  clear Ee.
  split; [exact isPlainName_spec|].
  split; [|split; [|split]].
  - intros name. unfold nameSet, classify. rewrite classify_loop. cbn [fst].
    rewrite elem_of_union, elem_of_list_to_set, list_elem_of_In, in_map_iff.
    split.
    + intros [(e & <- & He)|Hn]; [|apply not_elem_of_empty in Hn; contradiction].
      apply filter_In in He as [He Hp]. exists e. auto.
    + intros (e & He & Hp & ->). left. exists e. split; [reflexivity|].
      apply filter_In. auto.
  - unfold regexList, classify. rewrite classify_loop. reflexivity.
  - apply removeKey_loop.
  - intros key. unfold st'. rewrite removeKey_loop, <- removes_spec.
    unfold params_keys. rewrite !in_map_iff. split.
    + intros ([k v] & Ek & Hin). simpl in Ek. subst k.
      apply filter_In in Hin as [Hin Hr]. simpl in Hr. split.
      * exists (key, v). auto.
      * intros Hrm. rewrite Hrm in Hr. discriminate.
    + intros [([k v] & Ek & Hin) Hr]. simpl in Ek. subst k.
      exists (key, v). split; [reflexivity|].
      apply filter_In. split; [assumption|]. simpl.
      destruct (removes nameSet regexList key); [contradiction Hr|]; reflexivity.
Qed.

(** *** Raw rules *)

Lemma applyRawRule_cases (st : URL * bool) (raw : string) :
  applyRawRule st raw = st
  \/ exists re w,
       safeRegExp raw "ig" = Some re
       /\ String_replace (URL_toString (fst st)) re <> URL_toString (fst st)
       /\ URL_new (String_replace (URL_toString (fst st)) re) = Some w
       /\ applyRawRule st raw = (w, true).
Proof.
  unfold applyRawRule.
  destruct (safeRegExp raw "ig") as [re|]; [|left; reflexivity].
  destruct (String.eqb _ _) eqn:E; [left; reflexivity|].
  apply String.eqb_neq in E. cbn [negb].
  destruct (URL_new _) as [w|] eqn:Ew; [|left; reflexivity].
  right. exists re, w. auto.
Qed.

(** Over a whole list of raw rules the state is either the one the loop
    started from, or a URL that parsed, with the flag set. *)
Lemma rawRules_loop (rs : list string) (st : URL * bool) :
  fold_left applyRawRule rs st = st
  \/ exists s, URL_new s = Some (fst (fold_left applyRawRule rs st))
               /\ snd (fold_left applyRawRule rs st) = true.
Proof.
  revert st. induction rs as [|r rs IH]; intros st; [left; reflexivity|].
  cbn [fold_left].
  destruct (applyRawRule_cases st r) as [E|(re & w & _ & _ & Ew & E)].
  - rewrite E. apply IH.
  - rewrite E. destruct (IH (w, true)) as [E'|E']; [|right; exact E'].
    right. rewrite E'. eexists. split; [exact Ew|reflexivity].
Qed.

(** C5 -- a raw rule whose pattern compiles and whose substitution changes
    the serialised working URL is parsed again: when the new text is not a
    valid URL the step is dropped, the working URL and the changed flag stay
    as they were; when it is valid it becomes the working URL and the flag
    is set.  A substitution that changes nothing leaves the state alone.
    Hence, after any list of raw rules, the state is the one before them or
    a URL that parsed with the flag set. *)
Theorem raw_rule_reparsed (st : URL * bool) (raw : string) (re : RegExp) :
  safeRegExp raw "ig" = Some re ->
  let before := URL_toString (fst st) in
  let after := String_replace before re in
  (after <> before -> URL_new after = None -> applyRawRule st raw = st)
  /\ (after <> before -> forall w, URL_new after = Some w ->
      applyRawRule st raw = (w, true))
  /\ (after = before -> applyRawRule st raw = st)
  /\ (forall rs, let st' := fold_left applyRawRule rs st in
                 st' = st
                 \/ exists s, URL_new s = Some (fst st') /\ snd st' = true).
Proof.
  intros Hre before after.
  split; [|split; [|split]]; [| | |intros rs; apply rawRules_loop];
    unfold applyRawRule; rewrite Hre; fold before; fold after;
    (destruct (String.eqb after before) eqn:E;
     [apply String.eqb_eq in E|apply String.eqb_neq in E]); cbn [negb].
  - intros Hne. contradiction.
  - intros _ ->. reflexivity.
  - intros Hne. contradiction.
  - intros _ w ->. reflexivity.
  - reflexivity.
  - intros Heq. contradiction.
Qed.

End ApplyClearUrlsProperties.

(** ** Cleaning twice *)

Section CleaningTwice.
Context `{Platform}.
Variable BAD_PARAMS_LIST : list string.
Variable REFERRAL_PARAMS_LIST : list string.
Variable opts : StripOptions.

Local Abbreviation shouldRemove :=
  (shouldRemove BAD_PARAMS_LIST REFERRAL_PARAMS_LIST opts).
Local Abbreviation removeQueryParams :=
  (removeQueryParams BAD_PARAMS_LIST REFERRAL_PARAMS_LIST opts).
Local Abbreviation stripTracking :=
  (stripTracking BAD_PARAMS_LIST REFERRAL_PARAMS_LIST opts).
Local Abbreviation cleaned := (cleaned BAD_PARAMS_LIST REFERRAL_PARAMS_LIST opts).

(** C3 (amended) -- where cleaning twice is cleaning once.  The heuristic
    cleaner returns its own result, with [changed = false], when that result
    is not a redirector link and reads back as the URL object it was written
    from (same parameters, no key to remove in the fragment).  In both
    cleaners the loop over the query keys, run on what it left, deletes
    nothing and does not set the flag. *)
Theorem cleaning_twice (input : string) (urlObj : URL)
    (nameSet : gset string) (regexList : list RegExp) (st : URL * bool) :
  URL_new (fst (unwrapKnownRedirectors (String_trim input))) = Some urlObj ->
  let final :=
    fst (cleaned urlObj (JS.truthy (snd (unwrapKnownRedirectors (String_trim input))))) in
  let out := url (stripTracking input) in
  (URL_new (String_trim out) = Some (normalizeSearch final) ->
   JS.truthy (snd (unwrapKnownRedirectors (String_trim out))) = false ->
   searchParams (normalizeSearch final) = searchParams final ->
   existsb shouldRemove
     (params_keys (URLSearchParams_new
                     (JS.dropHashMark (URL_hash (normalizeSearch final))))) = false ->
   stripTracking out = mkResult out false None None)
  /\ (let st' := removeQueryParams st in
      removeQueryParams (fst st', false) = (fst st', false))
  /\ (let st' := fold_left (removeKey nameSet regexList)
                           (params_keys (searchParams (fst st))) st in
      fold_left (removeKey nameSet regexList)
                (params_keys (searchParams (fst st'))) (fst st', false)
      = (fst st', false)).
Proof.
  intros E final out. split; [|split].
  - apply (stripTracking_again BAD_PARAMS_LIST REFERRAL_PARAMS_LIST opts
             input urlObj E).
  - apply removeQueryParams_again.
  - intros st'. apply (deleteKey_loop_id (removes nameSet regexList)).
    cbn [fst]. unfold st'. rewrite removeKey_loop. apply kept_not_selected.
Qed.

End CleaningTwice.

(** ** Concrete runs on the reference platform *)

Section Runs.
Import Samples.
Local Existing Instance Reference.platform.

(** C2 -- the failing input.  The input is itself an absolute URL; the
    Google rule fires on it and hands over the value of q, which is not an
    absolute URL; the cleaner then answers "Invalid URL" for the input
    instead of going on with the URL it had parsed. *)
Theorem bad_redirector_target_is_fatal :
  let input := "https://www.google.com/url?q=example.com"%string in
  (exists u, parse input = Some u)
  /\ unwrapKnownRedirectors (H := Reference.platform) input
     = ("example.com"%string, Some "google"%string)
  /\ parse "example.com" = None
  /\ clean defaultStripOptions input = mkResult input false None (Some InvalidURL).
Proof.
  cbv zeta. split; [eexists; vm_compute; reflexivity|].
  repeat split; vm_compute; reflexivity.
Qed.

(** C9 -- the failing input.  The input is an absolute URL whose query
    holds the key utm_source, which the cleaner selects and which is not on
    the keep list.  The Google rule fires on it and hands over the value of
    q, which is not an absolute URL; the cleaner answers "Invalid URL" and
    gives the input back as it came, utm_source included. *)
Theorem utm_key_kept_on_bad_target :
  let input := "https://www.google.com/url?q=example.com&utm_source=x"%string in
  (exists u, parse input = Some u
             /\ In "utm_source"%string (params_keys (searchParams u)))
  /\ JS.startsWith "utm_" (String_toLowerCase "utm_source") = true
  /\ (String_toLowerCase "utm_source"
      ∉ keep (H := Reference.platform) defaultStripOptions)
  /\ shouldRemove (H := Reference.platform) BAD_PARAMS_LIST REFERRAL_PARAMS_LIST
       defaultStripOptions "utm_source" = true
  /\ unwrapKnownRedirectors (H := Reference.platform) input
     = ("example.com"%string, Some "google"%string)
  /\ clean defaultStripOptions input = mkResult input false None (Some InvalidURL)
  /\ JS.includes "utm_source=x" (url (clean defaultStripOptions input)) = true.
Proof.
  cbv zeta. split; [eexists; split; [vm_compute; reflexivity|vm_compute; tauto]|].
  split; [reflexivity|].
  split; [vm_compute; intros E; discriminate E|].
  repeat split; vm_compute; reflexivity.
Qed.

(** C10 -- canonicalisation is not reported.  An upper-case scheme and
    host, a lone trailing "?" and a default port are each rewritten by
    parsing and serialising, and both cleaners answer with the rewritten
    string and [changed = false]. *)
Theorem canonicalisation_unreported :
  clean defaultStripOptions "HTTPS://Example.COM/path"
  = mkResult "https://example.com/path" false None None
  /\ clean defaultStripOptions "https://example.com/path?"
     = mkResult "https://example.com/path" false None None
  /\ clean defaultStripOptions "https://example.com:443/path"
     = mkResult "https://example.com/path" false None None
  /\ apply "HTTPS://Example.COM/path" rules defaultApplyOptions
     = mkResult "https://example.com/path" false None None
  /\ apply "https://example.com/path?" rules defaultApplyOptions
     = mkResult "https://example.com/path" false None None
  /\ apply "https://example.com:443/path" rules defaultApplyOptions
     = mkResult "https://example.com/path" false None None.
Proof. repeat split; vm_compute; reflexivity. Qed.

(** C1 -- counterexample.  [hopA] rewrites the working URL to a URL of
    b.example that [hopB] matches; read on the updated string, [hopB] would
    lead on to c.example, but the pass stops at b.example: [hopB] is tested
    on the input's string, which it does not match. *)
Lemma redirections_do_not_chain :
  exists w wB wC : URL,
    parse twoHops = Some w
    /\ redirectionPass (H := Reference.platform) [hopA; hopB] w = (wB, true)
    /\ URL_toString wB = "https://b.example/r?next=https%3A%2F%2Fc.example%2F"%string
    /\ providerActive (H := Reference.platform) hopB (URL_toString wB) = true
    /\ redirectionPass_chained (H := Reference.platform) [hopA; hopB] w = (wC, true)
    /\ URL_toString wC = "https://c.example/"%string
    /\ redirectionPass (H := Reference.platform) [hopA; hopB] w
       <> redirectionPass_chained (H := Reference.platform) [hopA; hopB] w
    /\ url (apply twoHops (RulesObject (Some [("a", hopA); ("b", hopB)]))%string
                  defaultApplyOptions)
       = "https://b.example/r?next=https%3A%2F%2Fc.example%2F"%string.
Proof.
  do 3 eexists. split; [vm_compute; reflexivity|].
  split; [vm_compute; reflexivity|].
  split; [vm_compute; reflexivity|].
  split; [vm_compute; reflexivity|].
  split; [vm_compute; reflexivity|].
  split; [vm_compute; reflexivity|].
  split; [vm_compute; discriminate|].
  vm_compute; reflexivity.
Qed.

(** C3 -- counterexample.  A redirector link that wraps another one is
    unwrapped by one level per call, by either cleaner: the second call
    changes the URL again and reports it. *)
Lemma cleaners_not_idempotent :
  let U := "https://www.google.com/url?q=https%3A%2F%2Fwww.google.com%2Furl%3Fq%3Dhttps%253A%252F%252Fexample.com%252F"%string in
  let V := "https://out.example.com/r?to=https%3A%2F%2Fout.example.com%2Fr%3Fto%3Dhttps%253A%252F%252Fexample.org%252F"%string in
  let once := clean defaultStripOptions U in
  let twice := clean defaultStripOptions (url once) in
  let once' := apply V rules defaultApplyOptions in
  let twice' := apply (url once') rules defaultApplyOptions in
  url once = "https://www.google.com/url?q=https%3A%2F%2Fexample.com%2F"%string
  /\ url twice = "https://example.com/"%string
  /\ url twice <> url once
  /\ changed twice = true
  /\ url once' = "https://out.example.com/r?to=https%3A%2F%2Fexample.org%2F"%string
  /\ url twice' = "https://example.org/"%string
  /\ url twice' <> url once'
  /\ changed twice' = true.
Proof.
  cbv zeta. repeat split; vm_compute; (reflexivity || discriminate).
Qed.

(** C6 -- counterexample.  With [keepme] on the keep list, the parameter is
    in the query of the input and not in the query of the result, because
    the whole link is replaced by the redirector's target; and the rule
    interpreter has no keep list at all: whatever its options, a key named
    by a rule is removed. *)
Lemma keep_list_lost_on_unwrap :
  let opts := mkStripOptions ["keepme"%string] [] true in
  let input := "https://www.google.com/url?q=https://example.com/page&keepme=1"%string in
  (exists uin uout : URL,
     parse input = Some uin
     /\ In "keepme"%string (params_keys (searchParams uin))
     /\ String_toLowerCase "keepme" ∈ keep opts
     /\ clean opts input
        = mkResult "https://example.com/page" true (Some "google"%string) None
     /\ parse (url (clean opts input)) = Some uout
     /\ ~ In "keepme"%string (params_keys (searchParams uout)))
  /\ forall o : ApplyOptions,
       url (apply "https://example.com/page?gclid=1" rules o)
       = "https://example.com/page"%string.
Proof.
  cbv zeta. split.
  - do 2 eexists. split; [vm_compute; reflexivity|].
    split; [vm_compute; tauto|].
    split; [vm_compute; reflexivity|].
    split; [vm_compute; reflexivity|].
    split; [vm_compute; reflexivity|].
    vm_compute. tauto.
  - intros [[|]]; vm_compute; reflexivity.
Qed.

(** C8 -- counterexample.  The Facebook rule fires on a host that is not
    l.facebook.com: the path /l.php and a u parameter are enough. *)
Lemma facebook_rule_ignores_host :
  let input := "https://example.com/l.php?u=https://target.example/"%string in
  exists u : URL,
    parse input = Some u
    /\ hostname u = "example.com"%string
    /\ hostname u <> "l.facebook.com"%string
    /\ unwrapKnownRedirectors (H := Reference.platform) input
       = ("https://target.example/"%string, Some "facebook"%string)
    /\ clean defaultStripOptions input
       = mkResult "https://target.example/" true (Some "facebook"%string) None.
Proof.
  cbv zeta. eexists. split; [vm_compute; reflexivity|].
  split; [reflexivity|]. split; [discriminate|].
  split; vm_compute; reflexivity.
Qed.

End Runs.

(** ** The theorems at concrete inputs *)

Section Witnesses.
Import Samples.
Local Existing Instance Reference.platform.

(** X22 at a page address with utm_ keys in its query and fragment. *)
Lemma utm_prefix_universality_witness :
  let final := strippedUrl (H := Reference.platform)
                 BAD_PARAMS_LIST REFERRAL_PARAMS_LIST defaultStripOptions pageUrl in
  parse (fst (unwrapKnownRedirectors (H := Reference.platform) (String_trim pageInput)))
  = Some pageUrl
  /\ url (clean defaultStripOptions pageInput) = normalizeUrl final
  /\ ~ In "utm_source"%string (params_keys (searchParams final)).
Proof.
  cbv zeta. split; [reflexivity|].
  destruct (utm_prefix_universality (H := Reference.platform)
              BAD_PARAMS_LIST REFERRAL_PARAMS_LIST defaultStripOptions
              pageInput pageUrl eq_refl) as (Hurl & _ & Hutm).
  split; [exact Hurl|].
  apply Hutm; [reflexivity|]. vm_compute. intros E. discriminate E.
Defined.

(** C6 at the same address, with utm_source on the keep list in another
    letter case. *)
Lemma keep_list_precedence_witness :
  let opts := mkStripOptions ["UTM_Source"%string] [] true in
  let final := strippedUrl (H := Reference.platform)
                 BAD_PARAMS_LIST REFERRAL_PARAMS_LIST opts pageUrl in
  parse (fst (unwrapKnownRedirectors (H := Reference.platform) (String_trim pageInput)))
  = Some pageUrl
  /\ url (clean opts pageInput) = normalizeUrl final
  /\ (In ("utm_source", "google")%string (searchParams final)
      <-> In ("utm_source", "google")%string (searchParams pageUrl)).
Proof.
  cbv zeta. split; [reflexivity|].
  destruct (keep_list_precedence (H := Reference.platform)
              BAD_PARAMS_LIST REFERRAL_PARAMS_LIST
              (mkStripOptions ["UTM_Source"%string] [] true)
              pageInput pageUrl eq_refl) as (Hurl & _ & _ & Hpair & _).
  split; [exact Hurl|].
  apply Hpair. vm_compute. reflexivity.
Defined.

(** C8 at a Facebook redirector link. *)
Lemma redirector_rules_witness :
  let input := "https://l.facebook.com/l.php?u=https%3A%2F%2Fexample.com%2F"%string in
  parse input = Some facebookUrl
  /\ params_get (searchParams facebookUrl) "u"
     = Some (fst (unwrapKnownRedirectors (H := Reference.platform) input)).
Proof.
  cbv zeta. split; [reflexivity|].
  destruct (redirector_rules (H := Reference.platform)
              "https://l.facebook.com/l.php?u=https%3A%2F%2Fexample.com%2F"
              facebookUrl eq_refl) as (_ & _ & _ & _ & _ & Hu & _).
  apply Hu. left. reflexivity.
Defined.

(** C5 at a raw rule that deletes the scheme: what is left does not parse
    and the step is dropped. *)
Lemma raw_rule_reparsed_witness :
  safeRegExp (H := Reference.platform) "^https:" "ig" = Some dropScheme
  /\ String_replace (URL_toString plainUrl) dropScheme = "//example.com/?a=1"%string
  /\ parse "//example.com/?a=1" = None
  /\ applyRawRule (H := Reference.platform) (plainUrl, false) "^https:"
     = (plainUrl, false).
Proof.
  split; [reflexivity|]. split; [reflexivity|]. split; [reflexivity|].
  destruct (raw_rule_reparsed (H := Reference.platform) (plainUrl, false)
              "^https:" dropScheme eq_refl) as (Hdrop & _ & _ & _).
  apply Hdrop; [discriminate|reflexivity].
Defined.

(** C3 at the page address: its result is returned as it is by a second
    call. *)
Lemma cleaning_twice_witness :
  parse (fst (unwrapKnownRedirectors (H := Reference.platform) (String_trim pageInput)))
  = Some pageUrl
  /\ url (clean defaultStripOptions pageInput)
     = "https://example.com/page?custom_param=value#section=2"%string
  /\ clean defaultStripOptions (url (clean defaultStripOptions pageInput))
     = mkResult (url (clean defaultStripOptions pageInput)) false None None.
Proof.
  split; [reflexivity|]. split; [vm_compute; reflexivity|].
  destruct (cleaning_twice (H := Reference.platform)
              BAD_PARAMS_LIST REFERRAL_PARAMS_LIST defaultStripOptions
              pageInput pageUrl ∅ [] (pageUrl, false) eq_refl) as (Hidem & _ & _).
  apply Hidem; vm_compute; reflexivity.
Defined.

End Witnesses.

(** * Further properties of the cleaners *)

(** ** The heuristic cleaner: results *)

Section StripTrackingResults.
Context `{Platform}.
Variable BAD_PARAMS_LIST : list string.
Variable REFERRAL_PARAMS_LIST : list string.
Variable opts : StripOptions.

Local Abbreviation shouldRemove :=
  (shouldRemove BAD_PARAMS_LIST REFERRAL_PARAMS_LIST opts).
Local Abbreviation removeQueryParams :=
  (removeQueryParams BAD_PARAMS_LIST REFERRAL_PARAMS_LIST opts).
Local Abbreviation cleanHash :=
  (cleanHash BAD_PARAMS_LIST REFERRAL_PARAMS_LIST opts).
Local Abbreviation stripTracking :=
  (stripTracking BAD_PARAMS_LIST REFERRAL_PARAMS_LIST opts).
Local Abbreviation cleaned := (cleaned BAD_PARAMS_LIST REFERRAL_PARAMS_LIST opts).

Lemma unwrap_unparsed (urlStr : string) :
  URL_new urlStr = None -> unwrapKnownRedirectors urlStr = (urlStr, None).
Proof. intros E. unfold unwrapKnownRedirectors. rewrite E. reflexivity. Qed.

Lemma unwrap_from (urlStr : string) :
  In (snd (unwrapKnownRedirectors urlStr))
     [None; Some "google"; Some "facebook"; Some "instagram"]%string.
Proof.
  unfold unwrapKnownRedirectors.
  destruct (URL_new urlStr); [|simpl; tauto].
  repeat (destruct (_ && _); [simpl; tauto|]). simpl. tauto.
Qed.

(** X1 -- the only failure of the heuristic cleaner.  A result carries an
    error only in the form "Invalid URL", with the input string given back
    as it came (not trimmed), no change reported and no provenance; and an
    input that does not parse once trimmed always gets that result. *)
Theorem stripTracking_error_contract (input : string) :
  let r := stripTracking input in
  (error r = None \/ r = mkResult input false None (Some InvalidURL))
  /\ (URL_new (String_trim input) = None ->
      r = mkResult input false None (Some InvalidURL)).
Proof.
  cbv zeta. split.
  - unfold stripTracking. destruct (URL_new _); [left|right]; reflexivity.
  - intros E. unfold stripTracking.
    rewrite (unwrap_unparsed _ E). cbn [fst]. rewrite E. reflexivity.
Qed.

Lemma unwrapped_flag (urlObj : URL) : snd (cleaned urlObj true) = true.
Proof.
  unfold cleaned, cleanHash. cbn [fst snd].
  destruct (removeQueryParams_spec BAD_PARAMS_LIST REFERRAL_PARAMS_LIST opts
              (urlObj, true)) as (_ & Hc & _).
  cbn [snd] in Hc.
  destruct (_ && _); [|exact Hc].
  destruct (fold_left _ _ _) as [hp [|]]; [reflexivity|exact Hc].
Qed.

(** X2 -- provenance.  [unwrappedFrom] is absent or one of "google",
    "facebook", "instagram"; when it is present the result has no error
    and reports a change. *)
Theorem stripTracking_provenance (input : string) :
  let r := stripTracking input in
  In (unwrappedFrom r) [None; Some "google"; Some "facebook"; Some "instagram"]%string
  /\ (unwrappedFrom r <> None -> changed r = true /\ error r = None).
Proof.
  cbv zeta. unfold stripTracking.
  pose proof (unwrap_from (String_trim input)) as Hfrom.
  destruct (URL_new _) as [urlObj|]; cbn [unwrappedFrom changed error].
  - split.
    + destruct (JS.truthy _); [exact Hfrom|simpl; tauto].
    + intros Hne. split; [|reflexivity].
      destruct (JS.truthy (snd (unwrapKnownRedirectors (String_trim input)))) eqn:T;
        [|contradiction].
      apply unwrapped_flag.
  - split; [simpl; tauto|]. intros Hne. contradiction.
Qed.

Lemma changed_formula (input : string) (urlObj : URL) :
  URL_new (fst (unwrapKnownRedirectors (String_trim input))) = Some urlObj ->
  let hashParams := URLSearchParams_new (JS.dropHashMark (URL_hash urlObj)) in
  changed (stripTracking input)
  = JS.truthy (snd (unwrapKnownRedirectors (String_trim input)))
    || existsb shouldRemove (params_keys (searchParams urlObj))
    || (negb (String.eqb (URL_hash urlObj) "") && JS.includes "=" (URL_hash urlObj)
        && existsb shouldRemove (params_keys hashParams)).
Proof.
  intros E hashParams.
  rewrite (stripTracking_cleaned BAD_PARAMS_LIST REFERRAL_PARAMS_LIST opts
             input urlObj E). cbn [changed]. unfold cleaned.
  destruct (removeQueryParams_spec BAD_PARAMS_LIST REFERRAL_PARAMS_LIST opts
              (urlObj, JS.truthy (snd (unwrapKnownRedirectors (String_trim input)))))
    as (_ & Hc & _ & _ & _ & Hf).
  cbn [fst snd] in Hc, Hf.
  destruct (removeQueryParams _) as [u1 c1] eqn:E1. cbn [fst snd] in Hc, Hf.
  rewrite cleanHash_closed.
  assert (Hh : URL_hash u1 = URL_hash urlObj) by (unfold URL_hash; rewrite Hf; reflexivity).
  rewrite Hh. fold hashParams.
  destruct (negb (String.eqb (URL_hash urlObj) "") && JS.includes "=" (URL_hash urlObj)
            && existsb shouldRemove (params_keys hashParams)); cbn [snd].
  - rewrite orb_true_r. reflexivity.
  - rewrite orb_false_r. exact Hc.
Qed.

(** X3 -- what [changed] reports.  When the raw URL parses, [changed] is
    true exactly when a redirector was unwrapped, or a query key is
    selected, or the fragment (not empty, with an "=") read as parameters
    holds a selected key.  So when the result reports no change, nothing
    was unwrapped, the raw URL is the trimmed input, and the result is the
    normalised serialisation of the URL object it parsed to: no parameter
    and no part of the fragment has been removed. *)
Theorem stripTracking_changed (input : string) (urlObj : URL) :
  URL_new (fst (unwrapKnownRedirectors (String_trim input))) = Some urlObj ->
  let hashParams := URLSearchParams_new (JS.dropHashMark (URL_hash urlObj)) in
  changed (stripTracking input)
  = JS.truthy (snd (unwrapKnownRedirectors (String_trim input)))
    || existsb shouldRemove (params_keys (searchParams urlObj))
    || (negb (String.eqb (URL_hash urlObj) "") && JS.includes "=" (URL_hash urlObj)
        && existsb shouldRemove (params_keys hashParams))
  /\ (changed (stripTracking input) = false ->
      URL_new (String_trim input) = Some urlObj
      /\ stripTracking input = mkResult (normalizeUrl urlObj) false None None).
Proof.
  intros E hashParams.
  pose proof (changed_formula input urlObj E) as F. cbv zeta in F.
  fold hashParams in F. split; [exact F|].
  intros Hc. rewrite Hc in F. symmetry in F.
  apply orb_false_elim in F as [F Fh]. apply orb_false_elim in F as [Ft Fq].
  split.
  - rewrite <- E. f_equal. symmetry. apply unwrap_none, Ft.
  - rewrite (stripTracking_cleaned BAD_PARAMS_LIST REFERRAL_PARAMS_LIST opts
               input urlObj E). cbv zeta. rewrite Ft. unfold cleaned.
    assert (Eq : removeQueryParams (urlObj, false) = (urlObj, false))
      by (apply (deleteKey_loop_id shouldRemove); exact Fq).
    rewrite Eq, cleanHash_closed. fold hashParams. rewrite Fh. reflexivity.
Qed.

Lemma shouldRemove_iff (key : string) :
  shouldRemove key = true
  <-> ~ In (String_toLowerCase key) (map String_toLowerCase (keepParams opts))
      /\ (JS.startsWith "utm_" (String_toLowerCase key) = true
          \/ In (String_toLowerCase key) BAD_PARAMS_LIST
          \/ (removeReferral opts = true
              /\ In (String_toLowerCase key) REFERRAL_PARAMS_LIST)
          \/ In (String_toLowerCase key) (map String_toLowerCase (extraBadParams opts))).
Proof.
  unfold shouldRemove, keep, BAD_PARAMS.
  rewrite <- !list_elem_of_In.
  destruct (bool_decide _) eqn:K.
  - apply bool_decide_eq_true in K. apply elem_of_list_to_set in K.
    split; [discriminate|]. intros [Hn _]. contradiction.
  - apply bool_decide_eq_false in K. rewrite elem_of_list_to_set in K.
    destruct (JS.startsWith "utm_" (String_toLowerCase key)).
    + split; [intros _; split; [exact K|left; reflexivity]|reflexivity].
    + rewrite bool_decide_eq_true, !elem_of_union, !elem_of_list_to_set.
      split.
      * intros [[Hb|Hr]|He]; (split; [exact K|]); [tauto| |tauto].
        destruct (removeReferral opts);
          [apply elem_of_list_to_set in Hr; tauto
          |apply not_elem_of_empty in Hr; contradiction].
      * intros [_ [Hu|[Hb|[[Hr Hin]|He]]]]; [discriminate|tauto| |tauto].
        left. right. rewrite Hr. apply elem_of_list_to_set. exact Hin.
Qed.

(** X4 -- which parameters survive.  When the raw URL parses to
    [urlObj], the result is the serialisation of [strippedUrl urlObj]: the
    parsed URL with its fragment as the hash block leaves it and, as
    parameters, the parsed pairs without those whose key is selected, in
    their order.  The pairs left are exactly the parsed ones whose
    lower-cased key is in keepParams (lower-cased) or else neither starts
    with utm_, nor is in the tracking table, nor -- when removeReferral is
    on -- in the referral table, nor in extraBadParams (lower-cased). *)
Theorem stripTracking_survivors (input : string) (urlObj : URL) :
  URL_new (fst (unwrapKnownRedirectors (String_trim input))) = Some urlObj ->
  let final := strippedUrl BAD_PARAMS_LIST REFERRAL_PARAMS_LIST opts urlObj in
  url (stripTracking input) = normalizeUrl final
  /\ searchParams final
     = List.filter (fun p => negb (shouldRemove (fst p))) (searchParams urlObj)
  /\ forall key value : string,
       In (key, value) (searchParams final)
       <-> In (key, value) (searchParams urlObj)
           /\ (In (String_toLowerCase key) (map String_toLowerCase (keepParams opts))
               \/ (JS.startsWith "utm_" (String_toLowerCase key) = false
                   /\ ~ In (String_toLowerCase key) BAD_PARAMS_LIST
                   /\ ~ (removeReferral opts = true
                         /\ In (String_toLowerCase key) REFERRAL_PARAMS_LIST)
                   /\ ~ In (String_toLowerCase key)
                           (map String_toLowerCase (extraBadParams opts)))).
Proof.
  intros E final.
  split; [apply (stripTracking_closed BAD_PARAMS_LIST REFERRAL_PARAMS_LIST opts
                   input urlObj E)|].
  split; [reflexivity|].
  intros key value. unfold final, strippedUrl, keptParams. cbn [searchParams].
  rewrite filter_In. cbn [fst].
  rewrite negb_true_iff.
  assert (D : shouldRemove key = false <-> ~ shouldRemove key = true)
    by (destruct (shouldRemove key); intuition discriminate).
  rewrite D, shouldRemove_iff.
  destruct (JS.startsWith "utm_" (String_toLowerCase key));
    destruct (in_dec string_dec (String_toLowerCase key)
                (map String_toLowerCase (keepParams opts)));
    intuition (discriminate || auto).
Qed.


End StripTrackingResults.

(** ** The rule interpreter: results *)

Section ApplyClearUrlsResults.
Context `{Platform}.

(** X6 -- the failures of the rule interpreter.  A result carries an error
    only with the input string given back as it came and no change; the
    error is "Rules not available" exactly when the ruleset is not an
    object with providers -- whatever the URL -- and "Invalid URL" exactly
    when the ruleset has providers and the trimmed input does not parse. *)
Theorem applyClearUrls_error_contract (inputUrl : string) (rulesJson : RulesJson)
    (o : ApplyOptions) :
  let r := applyClearUrls inputUrl rulesJson o in
  (error r = None
   \/ (url r = inputUrl /\ changed r = false
       /\ (error r = Some RulesUnavailable \/ error r = Some InvalidURL)))
  /\ (error r = Some RulesUnavailable
      <-> forall providersObj, rulesJson <> RulesObject (Some providersObj))
  /\ (error r = Some InvalidURL
      <-> (exists providersObj, rulesJson = RulesObject (Some providersObj))
          /\ URL_new (String_trim inputUrl) = None)
  /\ unwrappedFrom r = None.
Proof.
  cbv zeta. unfold applyClearUrls. split; [|split; [|split]].
  - destruct rulesJson as [| |[ps|]]; try (right; cbn; tauto).
    destruct (URL_new (String_trim inputUrl)); [left; reflexivity|right; cbn; tauto].
  - destruct rulesJson as [| |[ps|]]; cbn;
      try (split; [intros _ ps' E; discriminate E|reflexivity]).
    destruct (URL_new (String_trim inputUrl)); cbn;
      (split; [discriminate|intros Hn; exfalso; apply (Hn ps); reflexivity]).
  - destruct rulesJson as [| |[ps|]]; cbn;
      try (split; [discriminate|intros [[ps' E] _]; discriminate E]).
    destruct (URL_new (String_trim inputUrl)); cbn.
    + split; [discriminate|intros [_ E]; discriminate E].
    + split; [intros _; split; [exists ps|]; reflexivity|reflexivity].
  - destruct rulesJson as [| |[ps|]]; try reflexivity.
    destruct (URL_new (String_trim inputUrl)); reflexivity.
Qed.

(** *** Changes are reported *)

Lemma redirection_single_sweep_eq (providers : list Provider) (workingUrl : URL) :
  redirectionPass providers workingUrl
  = (List.last (redirectTargets (URL_toString workingUrl) providers) workingUrl,
     nonempty (redirectTargets (URL_toString workingUrl) providers)).
Proof. unfold redirectionPass. rewrite providers_loop. reflexivity. Qed.

Lemma reportsChange_compose (f g : URL * bool -> URL * bool) :
  reportsChange f -> reportsChange g -> reportsChange (fun st => g (f st)).
Proof.
  intros Hf Hg st. destruct (Hf st) as [E|E].
  - rewrite E. apply Hg.
  - right. destruct (Hg (f st)) as [E'|E']; [rewrite E'|]; assumption.
Qed.

Lemma reportsChange_fold {A} (step : URL * bool -> A -> URL * bool) (l : list A) :
  (forall a, reportsChange (fun st => step st a)) ->
  reportsChange (fun st => fold_left step l st).
Proof.
  intros Hstep. induction l as [|a l IH]; [left; reflexivity|].
  cbn [fold_left].
  apply (reportsChange_compose (fun st => step st a) (fun st => fold_left step l st));
    [apply Hstep|exact IH].
Qed.

Lemma removeKey_reports (nameSet : gset string) (regexList : list RegExp)
    (key : string) :
  reportsChange (fun st => removeKey nameSet regexList st key).
Proof. intros st. unfold removeKey. destruct (removes _ _ _); [right|left]; reflexivity. Qed.

Lemma applyRawRule_reports (raw : string) :
  reportsChange (fun st => applyRawRule st raw).
Proof.
  intros st. destruct (applyRawRule_cases st raw) as [E|(re & w & _ & _ & _ & E)];
    [left; exact E|right; rewrite E; reflexivity].
Qed.

Lemma removalProvider_reports (o : ApplyOptions) (p : Provider) :
  reportsChange (fun st => removalProvider o st p).
Proof.
  intros st. rewrite removalProvider_active.
  destruct (providerActive p (URL_toString (fst st))); [|left; reflexivity].
  set (ns := fst (classify (rawEntries o p))).
  set (rl := snd (classify (rawEntries o p))).
  destruct (reportsChange_fold (removeKey ns rl) (params_keys (searchParams (fst st)))
              (removeKey_reports ns rl) st) as [E|E].
  - rewrite E. apply (reportsChange_fold applyRawRule _ applyRawRule_reports).
  - right.
    destruct (reportsChange_fold applyRawRule (asList (rawRules p))
                applyRawRule_reports
                (fold_left (removeKey ns rl) (params_keys (searchParams (fst st))) st))
      as [E'|E']; [rewrite E'|]; assumption.
Qed.

(** X7 -- an unchanged result is the parsed input written back.  When the
    ruleset has providers, the trimmed input parses and the result reports
    no change, no redirection was followed, no key deleted and no raw rule
    applied: the result is the normalised serialisation of the URL object
    the input parsed to. *)
Theorem applyClearUrls_unchanged (inputUrl : string)
    (providersObj : list (string * Provider)) (o : ApplyOptions) (workingUrl : URL) :
  URL_new (String_trim inputUrl) = Some workingUrl ->
  changed (applyClearUrls inputUrl (RulesObject (Some providersObj)) o) = false ->
  applyClearUrls inputUrl (RulesObject (Some providersObj)) o
  = mkResult (normalizeUrl workingUrl) false None None
  /\ redirectTargets (URL_toString workingUrl) (Object_values providersObj) = [].
Proof.
  intros E Hc. unfold applyClearUrls in *. rewrite E in *. cbn [changed] in Hc.
  rewrite redirection_single_sweep_eq in *.
  set (targets := redirectTargets (URL_toString workingUrl)
                                  (Object_values providersObj)) in *.
  destruct (reportsChange_fold (removalProvider o) (Object_values providersObj)
              (removalProvider_reports o)
              (List.last targets workingUrl, nonempty targets)) as [E'|E'];
    [|unfold removalPass in Hc; rewrite Hc in E'; discriminate].
  unfold removalPass in *. rewrite E' in *. cbn [fst snd] in *.
  destruct targets; [|discriminate]. split; reflexivity.
Qed.

(** *** Providers that do not take part *)

Lemma isExcepted_witness (p : Provider) (s : string)
    (exs : list string) (ex : string) (re : RegExp) :
  exceptions p = Some exs -> In ex exs -> safeRegExp ex "i" = Some re ->
  RegExp_test re s = true -> isExcepted p s = true.
Proof.
  intros Hexs Hin Hre Ht. unfold isExcepted. rewrite Hexs.
  apply existsb_exists. exists ex. split; [exact Hin|]. rewrite Hre. exact Ht.
Qed.

Lemma inactive_redirect (s : string) (st : URL * bool) (p : Provider) :
  providerActive p s = false -> redirectProvider s st p = st.
Proof.
  unfold providerActive, redirectProvider.
  destruct (safeRegExp (urlPattern p) "i") as [urlRe|]; [|reflexivity].
  destruct (RegExp_test urlRe s); [|reflexivity].
  destruct (isExcepted p s); [reflexivity|discriminate].
Qed.

Lemma inactive_removal (o : ApplyOptions) (st : URL * bool) (p : Provider) :
  providerActive p (URL_toString (fst st)) = false -> removalProvider o st p = st.
Proof. intros E. rewrite removalProvider_active, E. reflexivity. Qed.

(** X8 -- exceptions switch a provider off, in each pass on the string
    that the pass reads.  In the redirection pass every provider is tested
    on [urlStr], the serialisation of the parsed input, whatever the working
    URL has become: when one of its exceptions compiles and matches
    [urlStr], the provider leaves every state as it is, and the pass runs
    as if the provider were not in the ruleset.  In the removal pass the
    test reads the working URL of the moment: when one of its exceptions
    compiles and matches that serialisation, the provider deletes no key
    and applies no raw rule. *)
Theorem provider_exception_suppression (o : ApplyOptions) (p : Provider)
    (exs : list string) (ex : string) (re : RegExp) :
  exceptions p = Some exs -> In ex exs -> safeRegExp ex "i" = Some re ->
  (forall (urlStr : string) (st : URL * bool),
     RegExp_test re urlStr = true -> redirectProvider urlStr st p = st)
  /\ (forall (before after : list Provider) (workingUrl : URL),
        RegExp_test re (URL_toString workingUrl) = true ->
        redirectionPass (before ++ p :: after) workingUrl
        = redirectionPass (before ++ after) workingUrl)
  /\ (forall st : URL * bool,
        RegExp_test re (URL_toString (fst st)) = true ->
        removalProvider o st p = st).
Proof.
  intros Hexs Hin Hre.
  assert (E : forall s, RegExp_test re s = true -> providerActive p s = false).
  { intros s Ht. unfold providerActive.
    destruct (safeRegExp (urlPattern p) "i"); [|reflexivity].
    rewrite (isExcepted_witness p _ exs ex re Hexs Hin Hre Ht).
    apply andb_false_r. }
  split; [|split].
  - intros urlStr st Ht. apply inactive_redirect, E, Ht.
  - intros before after workingUrl Ht. unfold redirectionPass.
    rewrite !fold_left_app. cbn [fold_left].
    rewrite (inactive_redirect _ _ _ (E _ Ht)). reflexivity.
  - intros st Ht. apply inactive_removal, E, Ht.
Qed.

(** *** Patterns that do not compile *)

Lemma fold_left_filter_skip {A S} (f : S -> A -> S) (g : A -> bool) (l : list A) :
  (forall a st, g a = false -> f st a = st) ->
  forall st, fold_left f (List.filter g l) st = fold_left f l st.
Proof.
  intros Hskip. induction l as [|a l IH]; intros st; [reflexivity|].
  cbn [List.filter fold_left]. destruct (g a) eqn:E.
  - cbn [fold_left]. apply IH.
  - rewrite (Hskip a st E). apply IH.
Qed.

Lemma existsb_filter_skip {A} (h g : A -> bool) (l : list A) :
  (forall a, g a = false -> h a = false) ->
  existsb h (List.filter g l) = existsb h l.
Proof.
  intros Hskip. induction l as [|a l IH]; [reflexivity|].
  cbn [List.filter existsb]. destruct (g a) eqn:E.
  - cbn [existsb]. rewrite IH. reflexivity.
  - rewrite (Hskip a E). exact IH.
Qed.

Lemma fold_left_map_ext {A B S} (f : S -> B -> S) (f' : S -> A -> S) (h : A -> B)
    (l : list A) :
  (forall a st, f st (h a) = f' st a) ->
  forall st, fold_left f (map h l) st = fold_left f' l st.
Proof.
  intros Hext. induction l as [|a l IH]; intros st; [reflexivity|].
  cbn [map fold_left]. rewrite Hext. apply IH.
Qed.

Lemma compiles_false (flags source : string) :
  compiles flags source = false -> safeRegExp source flags = None.
Proof. unfold compiles. destruct (safeRegExp source flags); [discriminate|reflexivity]. Qed.

Lemma isExcepted_compilingOnly (p : Provider) (s : string) :
  isExcepted (compilingOnly p) s = isExcepted p s.
Proof.
  unfold isExcepted. cbn [compilingOnly exceptions].
  destruct (exceptions p) as [exs|]; [|reflexivity]. cbn [option_map].
  apply existsb_filter_skip. intros ex E.
  rewrite (compiles_false _ _ E). reflexivity.
Qed.

Lemma providerActive_compilingOnly (p : Provider) (s : string) :
  providerActive (compilingOnly p) s = providerActive p s.
Proof.
  unfold providerActive. rewrite isExcepted_compilingOnly. reflexivity.
Qed.

Lemma redirectProvider_compilingOnly (s : string) (st : URL * bool) (p : Provider) :
  redirectProvider s st (compilingOnly p) = redirectProvider s st p.
Proof.
  unfold redirectProvider. rewrite isExcepted_compilingOnly.
  cbn [compilingOnly urlPattern redirections].
  destruct (safeRegExp (urlPattern p) "i"); [|reflexivity].
  destruct (negb _); [reflexivity|]. destruct (isExcepted p s); [reflexivity|].
  destruct (redirections p) as [rs|]; [|reflexivity]. cbn [option_map].
  apply fold_left_filter_skip. intros redir st' E.
  unfold redirectOne. rewrite (compiles_false _ _ E). reflexivity.
Qed.

Lemma asList_filter {A} (g : A -> bool) (x : option (list A)) :
  asList (option_map (List.filter g) x) = List.filter g (asList x).
Proof. destruct x; reflexivity. Qed.

Lemma classify_compiling (entries : list string) :
  classify (List.filter (fun e => isPlainName e || compiles "i" e) entries)
  = classify entries.
Proof.
  unfold classify. apply fold_left_filter_skip. intros e acc E.
  apply orb_false_elim in E as [Ep Ec].
  unfold classifyEntry. rewrite Ep, (compiles_false _ _ Ec). reflexivity.
Qed.

Lemma removalProvider_compilingOnly (o : ApplyOptions) (st : URL * bool)
    (p : Provider) :
  removalProvider o st (compilingOnly p) = removalProvider o st p.
Proof.
  rewrite !removalProvider_active, providerActive_compilingOnly.
  destruct (providerActive p (URL_toString (fst st))); [|reflexivity].
  assert (Ee : rawEntries o (compilingOnly p)
               = List.filter (fun e => isPlainName e || compiles "i" e)
                             (rawEntries o p)).
  { unfold rawEntries. cbn [compilingOnly rules referralMarketing].
    rewrite List.filter_app, !asList_filter.
    destruct (negb (allowReferral o)); reflexivity. }
  rewrite Ee, classify_compiling.
  cbn [compilingOnly rawRules]. rewrite asList_filter.
  apply fold_left_filter_skip. intros raw st' E.
  unfold applyRawRule. rewrite (compiles_false _ _ E). reflexivity.
Qed.

Lemma inactive_uncompiled (p : Provider) (s : string) :
  compiles "i" (urlPattern p) = false -> providerActive p s = false.
Proof.
  intros E. unfold providerActive. rewrite (compiles_false _ _ E). reflexivity.
Qed.

Lemma Object_values_compilingRules (providersObj : list (string * Provider)) :
  Object_values (compilingRules providersObj)
  = map compilingOnly
        (List.filter (fun p => compiles "i" (urlPattern p))
                     (Object_values providersObj)).
Proof.
  unfold Object_values, compilingRules.
  induction providersObj as [|[n p] ps IH]; [reflexivity|].
  cbn [List.filter map snd]. destruct (compiles "i" (urlPattern p)); cbn [map snd fst].
  - rewrite IH. reflexivity.
  - exact IH.
Qed.

(** X9 -- a pattern that does not compile is skipped, and nothing else.
    The result for a ruleset is the result for the ruleset from which
    every provider whose urlPattern does not compile, and every exception,
    redirection, rule, referralMarketing entry and raw rule that does not
    compile, has been taken out. *)
Theorem malformed_patterns_skipped (inputUrl : string)
    (providersObj : list (string * Provider)) (o : ApplyOptions) :
  applyClearUrls inputUrl (RulesObject (Some providersObj)) o
  = applyClearUrls inputUrl (RulesObject (Some (compilingRules providersObj))) o.
Proof.
  unfold applyClearUrls.
  destruct (URL_new (String_trim inputUrl)) as [w|]; [|reflexivity].
  rewrite Object_values_compilingRules.
  assert (R : forall s st,
             fold_left (redirectProvider s)
               (map compilingOnly
                  (List.filter (fun p => compiles "i" (urlPattern p))
                               (Object_values providersObj))) st
             = fold_left (redirectProvider s) (Object_values providersObj) st).
  { intros s st.
    rewrite (fold_left_map_ext (redirectProvider s) (redirectProvider s) compilingOnly)
      by (intros; apply redirectProvider_compilingOnly).
    apply fold_left_filter_skip. intros p st' E.
    apply inactive_redirect, inactive_uncompiled, E. }
  assert (M : forall st,
             fold_left (removalProvider o)
               (map compilingOnly
                  (List.filter (fun p => compiles "i" (urlPattern p))
                               (Object_values providersObj))) st
             = fold_left (removalProvider o) (Object_values providersObj) st).
  { intros st.
    rewrite (fold_left_map_ext (removalProvider o) (removalProvider o) compilingOnly)
      by (intros; apply removalProvider_compilingOnly).
    apply fold_left_filter_skip. intros p st' E.
    apply inactive_removal, inactive_uncompiled, E. }
  unfold removalPass, redirectionPass. rewrite R, M. reflexivity.
Qed.

(** *** The referral switch *)

Lemma Object_values_map {A} (h : A -> A) (obj : list (string * A)) :
  Object_values (map (fun np => (fst np, h (snd np))) obj) = map h (Object_values obj).
Proof. unfold Object_values. rewrite !map_map. reflexivity. Qed.

Lemma applyClearUrls_providers_ext (inputUrl : string)
    (providersObj : list (string * Provider)) (o o' : ApplyOptions)
    (h : Provider -> Provider) :
  (forall s st p, redirectProvider s st (h p) = redirectProvider s st p) ->
  (forall st p, removalProvider o' st (h p) = removalProvider o st p) ->
  applyClearUrls inputUrl
    (RulesObject (Some (map (fun np => (fst np, h (snd np))) providersObj))) o'
  = applyClearUrls inputUrl (RulesObject (Some providersObj)) o.
Proof.
  intros Hr Hm. unfold applyClearUrls.
  destruct (URL_new (String_trim inputUrl)) as [w|]; [|reflexivity].
  rewrite Object_values_map. unfold removalPass, redirectionPass.
  rewrite (fold_left_map_ext (redirectProvider (URL_toString w))
             (redirectProvider (URL_toString w)) h) by (intros; apply Hr).
  rewrite (fold_left_map_ext (removalProvider o') (removalProvider o) h)
    by (intros; apply Hm).
  reflexivity.
Qed.

(** X10 -- the referral switch.  With [allowReferral] on, the result is
    the one for the ruleset without any referralMarketing list, under any
    options; with it off, the result is the one for the ruleset where each
    provider's referralMarketing entries are appended to its rules, under
    any options. *)
Theorem referral_switch (inputUrl : string)
    (providersObj : list (string * Provider)) (o : ApplyOptions) :
  applyClearUrls inputUrl (RulesObject (Some providersObj)) (mkApplyOptions true)
  = applyClearUrls inputUrl
      (RulesObject (Some (map (fun np => (fst np, withoutReferral (snd np)))
                              providersObj))) o
  /\ applyClearUrls inputUrl (RulesObject (Some providersObj)) (mkApplyOptions false)
     = applyClearUrls inputUrl
         (RulesObject (Some (map (fun np => (fst np, referralAsRules (snd np)))
                                 providersObj))) o.
Proof.
  split; symmetry; apply applyClearUrls_providers_ext; try reflexivity;
    intros st p; rewrite !removalProvider_active;
    (replace (providerActive (_ p) (URL_toString (fst st)))
       with (providerActive p (URL_toString (fst st))) by reflexivity);
    destruct (providerActive p (URL_toString (fst st))); try reflexivity.
  - assert (Ee : rawEntries o (withoutReferral p)
                 = rawEntries (mkApplyOptions true) p).
    { unfold rawEntries. cbn. destruct (allowReferral o); reflexivity. }
    rewrite Ee. reflexivity.
  - assert (Ee : rawEntries o (referralAsRules p)
                 = rawEntries (mkApplyOptions false) p).
    { unfold rawEntries. cbn. destruct (allowReferral o); cbn;
        rewrite app_nil_r; reflexivity. }
    rewrite Ee. reflexivity.
Qed.

(** *** What parameter removal keeps *)





End ApplyClearUrlsResults.

(** * The rules refresh *)

Section HexDigest.
Import Background.

Lemma hexByte_roundtrip (b : Byte.byte) :
  fromHex (padStart 2 "0" (toString16 b)) = Some [b]
  /\ String.length (padStart 2 "0" (toString16 b)) = 2
  /\ JS.asciiLowerCase (padStart 2 "0" (toString16 b)) = padStart 2 "0" (toString16 b).
Proof. destruct b; vm_compute; repeat split. Qed.

Lemma concat_empty_cons (x : string) (l : list string) :
  String.concat "" (x :: l) = (x ++ String.concat "" l)%string.
Proof.
  destruct l as [|y l]; simpl.
  - induction x as [|c x IH]; [reflexivity|].
    change (String c x = String c (x ++ ""))%string. f_equal. exact IH.
  - reflexivity.
Qed.

Lemma asciiLowerCase_app (a b : string) :
  JS.asciiLowerCase (a ++ b) = (JS.asciiLowerCase a ++ JS.asciiLowerCase b)%string.
Proof. induction a as [|c a IH]; simpl; [reflexivity|]. rewrite IH. reflexivity. Qed.

Lemma fromHex_two (a b : ascii) (t : string) (byte : Byte.byte) :
  fromHex (String a (String b EmptyString)) = Some [byte] ->
  fromHex (String a (String b t))
  = option_map (cons byte) (fromHex t).
Proof.
  cbn [fromHex]. destruct (hexValue a), (hexValue b); try discriminate.
  destruct (Byte.of_nat _); [|discriminate].
  intros E. injection E as ->. destruct (fromHex t); reflexivity.
Qed.

(** X12 -- the digest in hexadecimal.  [sha256Hex] writes two lower-case
    hexadecimal digits per byte of the digest; the bytes can be read back
    from the string, so different digests never give the same string. *)
Theorem sha256Hex_format (digest : string -> list Byte.byte) (text : string) :
  fromHex (sha256Hex digest text) = Some (digest text)
  /\ String.length (sha256Hex digest text) = 2 * length (digest text)
  /\ JS.asciiLowerCase (sha256Hex digest text) = sha256Hex digest text.
Proof.
  unfold sha256Hex, toHex. induction (digest text) as [|b bytes IH].
  - repeat split.
  - cbn [map]. rewrite concat_empty_cons.
    destruct (hexByte_roundtrip b) as (Hb & Hl & Hc).
    destruct IH as (IH1 & IH2 & IH3).
    destruct (padStart 2 "0" (toString16 b)) as [|x [|y [|z r]]] eqn:E;
      try discriminate.
    split; [|split].
    + change (String x (String y "") ++ _)%string
        with (String x (String y (String.concat ""
               (map (fun b0 => padStart 2 "0" (toString16 b0)) bytes)))).
      rewrite (fromHex_two x y _ b Hb), IH1. reflexivity.
    + rewrite length_app_string, IH2. simpl. lia.
    + rewrite asciiLowerCase_app, Hc, IH3. reflexivity.
Qed.

End HexDigest.

Section RefreshProperties.
Context `{Platform}.
Import Background.
Variable digest : string -> list Byte.byte.
Variable JSON_parse : string -> option Json.

Local Abbreviation downloadAndCacheRules :=
  (downloadAndCacheRules digest JSON_parse).
Local Abbreviation downloadAndCacheRulesIfChanged :=
  (downloadAndCacheRulesIfChanged digest JSON_parse).
Local Abbreviation ensureFreshRules := (ensureFreshRules digest JSON_parse).
Local Abbreviation ensureFreshRulesIfChanged :=
  (ensureFreshRulesIfChanged digest JSON_parse).
Local Abbreviation storedFresh := (storedFresh digest JSON_parse).

Lemma download_cases (i : Inputs) (w : World) :
  (exists e, downloadAndCacheRules i w = (w, Throw e))
  \/ (exists p, storedFresh i p
                /\ downloadAndCacheRules i w = (saveRules p w, Ok (rules p))).
Proof.
  unfold downloadAndCacheRules.
  destruct (fetchText i RULES_URL) as [text|] eqn:Et; [|left; eexists; reflexivity].
  destruct (fetchText i HASH_URL) as [raw|] eqn:Er; [|left; eexists; reflexivity].
  cbv zeta.
  destruct (String.eqb _ _) eqn:Eh; cbn [negb]; [|left; eexists; reflexivity].
  destruct (JSON_parse text) as [rules|] eqn:Ep; [|left; eexists; reflexivity].
  right. exists (mkPayload rules (now i) (sha256Hex digest text)).
  split; [|reflexivity].
  exists text, raw. apply String.eqb_eq in Eh. repeat split; assumption.
Qed.

Lemma downloadIfChanged_cases (i : Inputs) (w : World) :
  (exists e, downloadAndCacheRulesIfChanged i w = (w, Throw e))
  \/ (exists c raw, storedRules w = Some c
                    /\ fetchText i HASH_URL = Some raw
                    /\ hash c = String_toLowerCase (String_trim raw)
                    /\ downloadAndCacheRulesIfChanged i w = (w, Ok (rules c, false)))
  \/ (exists p, storedFresh i p
                /\ downloadAndCacheRulesIfChanged i w
                   = (saveRules p w, Ok (rules p, true))).
Proof.
  unfold downloadAndCacheRulesIfChanged, loadCached.
  destruct (fetchText i HASH_URL) as [raw|] eqn:Er; [|left; eexists; reflexivity].
  cbv zeta.
  assert (D : (exists e,
                 match fetchText i RULES_URL with
                 | Some rulesText =>
                     if negb (String.eqb (sha256Hex digest rulesText)
                                         (String_toLowerCase (String_trim raw)))
                     then (w, Throw HashMismatch)
                     else match JSON_parse rulesText with
                          | Some rules =>
                              (saveRules (mkPayload rules (now i)
                                            (sha256Hex digest rulesText)) w,
                               Ok (rules, true))
                          | None => (w, Throw ParseError)
                          end
                 | None => (w, Throw FetchFailed)
                 end = (w, Throw e))
              \/ (exists p, storedFresh i p
                   /\ match fetchText i RULES_URL with
                      | Some rulesText =>
                          if negb (String.eqb (sha256Hex digest rulesText)
                                              (String_toLowerCase (String_trim raw)))
                          then (w, Throw HashMismatch)
                          else match JSON_parse rulesText with
                               | Some rules =>
                                   (saveRules (mkPayload rules (now i)
                                                 (sha256Hex digest rulesText)) w,
                                    Ok (rules, true))
                               | None => (w, Throw ParseError)
                               end
                      | None => (w, Throw FetchFailed)
                      end = (saveRules p w, Ok (rules p, true)))).
  { destruct (fetchText i RULES_URL) as [text|] eqn:Et; [|left; eexists; reflexivity].
    destruct (String.eqb _ _) eqn:Eh; cbn [negb]; [|left; eexists; reflexivity].
    destruct (JSON_parse text) as [rules|] eqn:Ep; [|left; eexists; reflexivity].
    right. exists (mkPayload rules (now i) (sha256Hex digest text)).
    split; [|reflexivity].
    exists text, raw. apply String.eqb_eq in Eh. repeat split; assumption. }
  destruct (storedRules w) as [c|] eqn:Ec.
  - destruct (String.eqb (hash c) (String_toLowerCase (String_trim raw))) eqn:Eh.
    + right. left. exists c, raw. apply String.eqb_eq in Eh. auto.
    + destruct D as [D|D]; [left|right; right]; exact D.
  - destruct D as [D|D]; [left|right; right]; exact D.
Qed.

(** X13 -- only verified rules reach the cache.  After a refresh, in
    either version, the cached payload is the one from before, or one that
    this run downloaded: both fetches succeeded, the hexadecimal SHA-256 of
    the rules text equals the trimmed, lower-cased content of the hash
    file, the text parsed, and the payload holds the parsed rules, the
    current time and that digest.  After a failed refresh it is always the
    one from before. *)
Theorem cache_holds_verified_rules (i : Inputs) (w : World) :
  let after := ensureFreshRules i w in
  let after' := ensureFreshRulesIfChanged i w in
  (storedRules (fst after) = storedRules w
   \/ exists p, storedRules (fst after) = Some p /\ storedFresh i p)
  /\ (snd after = false -> storedRules (fst after) = storedRules w)
  /\ (storedRules (fst after') = storedRules w
      \/ exists p, storedRules (fst after') = Some p /\ storedFresh i p)
  /\ (snd after' = false -> storedRules (fst after') = storedRules w).
Proof.
  cbv zeta. unfold ensureFreshRules, ensureFreshRulesIfChanged, ensureFreshRulesWith.
  split; [|split; [|split]].
  - destruct (download_cases i w) as [[e E]|(p & Hp & E)]; rewrite E.
    + left. reflexivity.
    + right. exists p. split; [reflexivity|exact Hp].
  - destruct (download_cases i w) as [[e E]|(p & Hp & E)]; rewrite E.
    + reflexivity.
    + discriminate.
  - destruct (downloadIfChanged_cases i w)
      as [[e E]|[(c & raw & _ & _ & _ & E)|(p & Hp & E)]]; rewrite E.
    + left. reflexivity.
    + left. reflexivity.
    + right. exists p. split; [reflexivity|exact Hp].
  - destruct (downloadIfChanged_cases i w)
      as [[e E]|[(c & raw & _ & _ & _ & E)|(p & Hp & E)]]; rewrite E.
    + reflexivity.
    + discriminate.
    + discriminate.
Qed.

(** *** Outcome of a refresh *)

Lemma download_keeps (i : Inputs) (w : World) :
  storedState (fst (downloadAndCacheRules i w)) = storedState w
  /\ alarms (fst (downloadAndCacheRules i w)) = alarms w.
Proof.
  destruct (download_cases i w) as [[e E]|(p & _ & E)]; rewrite E; split; reflexivity.
Qed.

Lemma downloadIfChanged_keeps (i : Inputs) (w : World) :
  storedState (fst (downloadAndCacheRulesIfChanged i w)) = storedState w
  /\ alarms (fst (downloadAndCacheRulesIfChanged i w)) = alarms w.
Proof.
  destruct (downloadIfChanged_cases i w)
    as [[e E]|[(c & raw & _ & _ & _ & E)|(p & _ & E)]]; rewrite E; split; reflexivity.
Qed.

Lemma alarm_names_differ : DAILY_ALARM <> RETRY_ALARM.
Proof. discriminate. Qed.

Lemma outcome_with {A} (download : Inputs -> World -> World * Outcome A)
    (i : Inputs) (w : World) :
  storedState (fst (download i w)) = storedState w ->
  alarms (fst (download i w)) = alarms w ->
  (forall e, snd (download i w) = Throw e -> fst (download i w) = w) ->
  refreshOutcome i w (ensureFreshRulesWith download i w).
Proof.
  intros Hs Ha Ht. unfold refreshOutcome, ensureFreshRulesWith.
  destruct (download i w) as [w' [a|e]] eqn:E; cbn [fst snd] in *.
  - unfold handleSuccess, scheduleDaily, saveState. cbn. rewrite Ha.
    repeat split. apply lookup_insert_ne, alarm_names_differ.
  - rewrite (Ht e eq_refl).
    unfold handleFailure, scheduleRetryIn, saveState, currentIndex. cbn.
    repeat split. apply lookup_insert_ne. intros E'. symmetry in E'.
    exact (alarm_names_differ E').
Qed.

(** X14 -- what a refresh leaves behind, in either version.  On success
    the backoff index is reset to 0 and the daily alarm is set with a
    period of 1440 minutes, while a retry alarm that is pending stays; on
    failure the cache is untouched, the retry alarm is set to the current
    time plus the delay read at the index (capped at 4), the index moves
    one step (capped at 4), and the daily alarm stays as it was. *)
Theorem refresh_outcome (i : Inputs) (w : World) :
  refreshOutcome i w (ensureFreshRules i w)
  /\ refreshOutcome i w (ensureFreshRulesIfChanged i w).
Proof.
  split.
  - apply (outcome_with downloadAndCacheRules i w);
      try apply download_keeps.
    intros e E. destruct (download_cases i w) as [[e' E']|(p & _ & E')];
      rewrite E' in *; [reflexivity|discriminate].
  - apply (outcome_with downloadAndCacheRulesIfChanged i w);
      try apply downloadIfChanged_keeps.
    intros e E.
    destruct (downloadIfChanged_cases i w)
      as [[e' E']|[(c & raw & _ & _ & _ & E')|(p & _ & E')]];
      rewrite E' in *; [reflexivity|discriminate|discriminate].
Qed.

(** *** Backoff *)

Lemma delay_at (z : Z) :
  (0 <= z <= 4)%Z ->
  exists d, at_index RETRY_DELAYS_MIN z = Some d
            /\ d = nth (Z.to_nat z) RETRY_DELAYS_MIN 60%Z
            /\ (1 <= d <= 60)%Z.
Proof.
  intros Hz.
  assert (C : (z = 0 \/ z = 1 \/ z = 2 \/ z = 3 \/ z = 4)%Z) by lia.
  destruct C as [ -> | [ -> | [ -> | [ -> | -> ]]]]; eexists; (split; [reflexivity|]);
    (split; [reflexivity|]); lia.
Qed.

Lemma handleFailure_step (i : Inputs) (w : World) :
  currentIndex (handleFailure i w) = Z.min (Z.min (currentIndex w) 4 + 1) 4
  /\ alarms (handleFailure i w) !! RETRY_ALARM
     = Some (OneShot (option_map (fun m => (now i + m * 60000)%Z)
                        (at_index RETRY_DELAYS_MIN (Z.min (currentIndex w) 4))))
  /\ sameCacheAndDaily w (handleFailure i w).
Proof.
  unfold handleFailure, scheduleRetryIn, saveState, currentIndex, sameCacheAndDaily.
  cbn. repeat split.
  - apply lookup_insert_eq.
  - apply lookup_insert_ne. intros E'. symmetry in E'. exact (alarm_names_differ E').
Qed.

Lemma failures_index (js : list Inputs) (w : World) :
  (0 <= currentIndex w)%Z ->
  let w' := fold_left (fun w j => handleFailure j w) js w in
  Z.min (currentIndex w') 4 = Z.min (currentIndex w + Z.of_nat (length js)) 4
  /\ sameCacheAndDaily w w'.
Proof.
  revert w. induction js as [|j js IH]; intros w Hw; cbn [fold_left length].
  - split; [f_equal; lia|split; reflexivity].
  - destruct (handleFailure_step j w) as (Hi & _ & Hr & Hd).
    assert (H0 : (0 <= currentIndex (handleFailure j w))%Z) by lia.
    destruct (IH (handleFailure j w) H0) as (IHi & IHr & IHd).
    split; [rewrite IHi, Hi; lia|].
    split; [rewrite IHr; exact Hr|rewrite IHd; exact Hd].
Qed.

(** X15 -- the retry schedule.  From a state whose backoff index is not
    negative, after any number n of failures in a row the next failure
    sets the retry alarm to its own time plus the delay found in
    [1; 5; 15; 30; 60] at position min (index + n, 4), and leaves the index
    at min (index + n + 1, 4): the delays climb the table and stay at 60
    minutes.  Failures never touch the cached rules or the daily alarm. *)
Theorem backoff_schedule (js : list Inputs) (i : Inputs) (w : World) :
  (0 <= currentIndex w)%Z ->
  let n := Z.of_nat (length js) in
  let w' := handleFailure i (fold_left (fun w j => handleFailure j w) js w) in
  let d := nth (Z.to_nat (Z.min (currentIndex w + n) 4)) RETRY_DELAYS_MIN 60%Z in
  currentIndex w' = Z.min (currentIndex w + n + 1) 4
  /\ alarms w' !! RETRY_ALARM = Some (OneShot (Some (now i + d * 60000)%Z))
  /\ (1 <= d <= 60)%Z
  /\ storedRules w' = storedRules w
  /\ alarms w' !! DAILY_ALARM = alarms w !! DAILY_ALARM.
Proof.
  intros Hw n w' d.
  destruct (failures_index js w Hw) as (Hi & Hr & Hd). cbv zeta in Hi, Hr, Hd.
  set (w1 := fold_left (fun w j => handleFailure j w) js w) in *.
  destruct (handleFailure_step i w1) as (Si & Sa & Sr & Sd). fold w' in Si, Sa, Sr, Sd.
  destruct (delay_at (Z.min (currentIndex w + n) 4)) as (d' & Hat & Hd' & Hrange);
    [lia|].
  fold d in Hd'. subst d'.
  split; [rewrite Si, Hi; fold n; lia|].
  split; [rewrite Sa, Hi; fold n; rewrite Hat; reflexivity|].
  split; [exact Hrange|].
  split; [rewrite Sr; exact Hr|rewrite Sd; exact Hd].
Qed.

(** *** An unchanged upstream hash *)

Lemma success_stores_hash (i : Inputs) (w : World) :
  snd (ensureFreshRules i w) = true ->
  exists p raw, storedRules (fst (ensureFreshRules i w)) = Some p
                /\ fetchText i HASH_URL = Some raw
                /\ hash p = String_toLowerCase (String_trim raw).
Proof.
  unfold ensureFreshRules, ensureFreshRulesWith.
  destruct (download_cases i w) as [[e E]|(p & Hp & E)]; rewrite E; [discriminate|].
  intros _. destruct Hp as (text & raw & _ & Hraw & Hh & _ & _ & Hhash).
  exists p, raw. repeat split; [exact Hraw|]. rewrite Hhash. exact Hh.
Qed.

Lemma successIfChanged_stores_hash (i : Inputs) (w : World) :
  snd (ensureFreshRulesIfChanged i w) = true ->
  exists p raw, storedRules (fst (ensureFreshRulesIfChanged i w)) = Some p
                /\ fetchText i HASH_URL = Some raw
                /\ hash p = String_toLowerCase (String_trim raw).
Proof.
  unfold ensureFreshRulesIfChanged, ensureFreshRulesWith.
  destruct (downloadIfChanged_cases i w)
    as [[e E]|[(c & raw & Hc & Hraw & Hh & E)|(p & Hp & E)]]; rewrite E;
    [discriminate| |].
  - intros _. exists c, raw. repeat split; assumption.
  - intros _. destruct Hp as (text & raw & _ & Hraw & Hh & _ & _ & Hhash).
    exists p, raw. repeat split; [exact Hraw|]. rewrite Hhash. exact Hh.
Qed.

Lemma shortcut (i : Inputs) (w : World) (p : Payload) (raw : string) :
  storedRules w = Some p -> fetchText i HASH_URL = Some raw ->
  hash p = String_toLowerCase (String_trim raw) ->
  ensureFreshRulesIfChanged i w = (handleSuccess w, true).
Proof.
  intros Hp Hraw Hh.
  unfold ensureFreshRulesIfChanged, ensureFreshRulesWith,
    downloadAndCacheRulesIfChanged, loadCached.
  rewrite Hraw, Hp. cbv zeta. rewrite Hh, String.eqb_refl. reflexivity.
Qed.

(** X16 -- nothing is downloaded while the upstream hash stays the same.
    After a successful refresh, of either version, a refresh of the later
    version that reads the same hash file succeeds without reading the
    rules file -- also when that file cannot be fetched -- and leaves the
    cached payload, time stamp included, as it is. *)
Theorem unchanged_upstream_hash (i i' : Inputs) (w : World) :
  fetchText i' HASH_URL = fetchText i HASH_URL ->
  (snd (ensureFreshRules i w) = true ->
   let w1 := fst (ensureFreshRules i w) in
   ensureFreshRulesIfChanged i' w1 = (handleSuccess w1, true)
   /\ storedRules (handleSuccess w1) = storedRules w1)
  /\ (snd (ensureFreshRulesIfChanged i w) = true ->
      let w1 := fst (ensureFreshRulesIfChanged i w) in
      ensureFreshRulesIfChanged i' w1 = (handleSuccess w1, true)
      /\ storedRules (handleSuccess w1) = storedRules w1).
Proof.
  intros Hsame. split; intros Hok; cbv zeta; (split; [|reflexivity]).
  - destruct (success_stores_hash i w Hok) as (p & raw & Hp & Hraw & Hh).
    apply (shortcut i' _ p raw); [exact Hp|rewrite Hsame; exact Hraw|exact Hh].
  - destruct (successIfChanged_stores_hash i w Hok) as (p & raw & Hp & Hraw & Hh).
    apply (shortcut i' _ p raw); [exact Hp|rewrite Hsame; exact Hraw|exact Hh].
Qed.

(** *** The hash file *)

Lemma is_space_lower (c : ascii) : JS.is_space (JS.lower_char c) = JS.is_space c.
Proof. destruct c as [[] [] [] [] [] [] [] []]; reflexivity. Qed.

Lemma no_space_lower (s : string) : no_space (JS.asciiLowerCase s) = no_space s.
Proof.
  induction s as [|c s IH]; [reflexivity|].
  cbn [JS.asciiLowerCase no_space]. rewrite is_space_lower, IH. reflexivity.
Qed.

Lemma no_space_app (a b : string) :
  no_space (a ++ b) = no_space a && no_space b.
Proof.
  induction a as [|c a IH]; [reflexivity|].
  simpl. rewrite IH, andb_assoc. reflexivity.
Qed.

Lemma no_space_hex (bytes : list Byte.byte) : no_space (toHex bytes) = true.
Proof.
  unfold toHex. induction bytes as [|b bytes IH]; [reflexivity|].
  cbn [map]. rewrite concat_empty_cons, no_space_app, IH, andb_true_r.
  destruct b; reflexivity.
Qed.

Lemma isAscii_app (a b : string) :
  JS.isAscii (a ++ b) = JS.isAscii a && JS.isAscii b.
Proof.
  induction a as [|c a IH]; [reflexivity|].
  simpl. rewrite IH, andb_assoc. reflexivity.
Qed.

Lemma isAscii_lower (s : string) : JS.isAscii (JS.asciiLowerCase s) = JS.isAscii s.
Proof.
  induction s as [|c s IH]; [reflexivity|].
  cbn [JS.asciiLowerCase JS.isAscii]. rewrite IH. f_equal.
  destruct c as [[] [] [] [] [] [] [] []]; reflexivity.
Qed.

Lemma isAscii_hex (bytes : list Byte.byte) : JS.isAscii (toHex bytes) = true.
Proof.
  unfold toHex. induction bytes as [|b bytes IH]; [reflexivity|].
  cbn [map]. rewrite concat_empty_cons, isAscii_app, IH, andb_true_r.
  destruct b; reflexivity.
Qed.

Lemma isAscii_spaces (ws : string) : all_space ws = true -> JS.isAscii ws = true.
Proof.
  induction ws as [|c ws IH]; [reflexivity|].
  cbn [all_space JS.isAscii]. intros E. apply andb_true_iff in E as [Ec Ews].
  rewrite (IH Ews), andb_true_r.
  destruct c as [[] [] [] [] [] [] [] []]; try reflexivity; discriminate Ec.
Qed.

Lemma trimStart_spaces (ws s : string) :
  all_space ws = true -> JS.trimStart (ws ++ s) = JS.trimStart s.
Proof.
  induction ws as [|c ws IH]; [reflexivity|].
  cbn [all_space]. intros E. apply andb_true_iff in E as [Ec Ews].
  simpl. rewrite Ec. apply IH, Ews.
Qed.

Lemma trimStart_all_space (ws : string) : all_space ws = true -> JS.trimStart ws = ""%string.
Proof.
  induction ws as [|c ws IH]; [reflexivity|].
  cbn [all_space]. intros E. apply andb_true_iff in E as [Ec Ews].
  cbn [JS.trimStart]. rewrite Ec. apply IH, Ews.
Qed.

Lemma trimEnd_all_space (ws : string) : all_space ws = true -> JS.trimEnd ws = ""%string.
Proof.
  induction ws as [|c ws IH]; [reflexivity|].
  cbn [all_space]. intros E. apply andb_true_iff in E as [Ec Ews].
  cbn [JS.trimEnd]. rewrite (IH Ews), Ec. reflexivity.
Qed.

Lemma trimEnd_no_space (h ws : string) :
  no_space h = true -> all_space ws = true -> JS.trimEnd (h ++ ws) = h.
Proof.
  intros Hh Hws. induction h as [|c h IH]; [apply trimEnd_all_space, Hws|].
  cbn [no_space] in Hh. apply andb_true_iff in Hh as [Hc Hh].
  apply negb_true_iff in Hc.
  change (JS.trimEnd (String c h ++ ws)) with
    (match JS.trimEnd (h ++ ws) with
     | EmptyString => if JS.is_space c then EmptyString else String c EmptyString
     | t => String c t
     end).
  rewrite (IH Hh). destruct h; [rewrite Hc|]; reflexivity.
Qed.

Lemma asciiTrim_padded (ws1 h ws2 : string) :
  all_space ws1 = true -> no_space h = true -> all_space ws2 = true ->
  JS.asciiTrim (ws1 ++ h ++ ws2) = h.
Proof.
  intros H1 Hh H2. unfold JS.asciiTrim. rewrite (trimStart_spaces _ _ H1).
  destruct h as [|c h].
  - change (""%string ++ ws2)%string with ws2.
    rewrite (trimStart_all_space _ H2). reflexivity.
  - pose proof Hh as Hh'. cbn [no_space] in Hh'.
    apply andb_true_iff in Hh' as [Hc _]. apply negb_true_iff in Hc.
    change (JS.trimStart (String c h ++ ws2))
      with (if JS.is_space c then JS.trimStart (h ++ ws2) else (String c h ++ ws2)%string).
    rewrite Hc. apply (trimEnd_no_space (String c h) ws2 Hh H2).
Qed.

(** The hash file read by the runtime's [trim] and [toLowerCase], when it
    is the hexadecimal digest [h], letters in any case, between ASCII white
    space. *)
Lemma hash_file_read (ws1 h ws2 hex : string) (bytes : list Byte.byte) :
  all_space ws1 = true -> all_space ws2 = true ->
  JS.asciiLowerCase h = toHex bytes ->
  String_toLowerCase (String_trim (ws1 ++ h ++ ws2)) = toHex bytes.
Proof.
  intros H1 H2 Hh.
  assert (Hn : no_space h = true)
    by (rewrite <- no_space_lower, Hh; apply no_space_hex).
  assert (Ha : JS.isAscii h = true)
    by (rewrite <- isAscii_lower, Hh; apply isAscii_hex).
  rewrite String_trim_ascii
    by (rewrite !isAscii_app, Ha, (isAscii_spaces _ H1), (isAscii_spaces _ H2);
        reflexivity).
  rewrite (asciiTrim_padded _ _ _ H1 Hn H2).
  rewrite (String_toLowerCase_ascii _ Ha). exact Hh.
Qed.

(** X17 -- how the hash file is read.  The rules are accepted when the
    hash file holds the digest of the rules text in hexadecimal, the
    letters A to F in any case, with any ASCII white space before and after
    it; the payload then stored carries the digest in lower case. *)
Theorem hash_file_tolerance (i : Inputs) (w : World)
    (text ws1 h ws2 : string) (rules : Json) :
  fetchText i RULES_URL = Some text ->
  fetchText i HASH_URL = Some (ws1 ++ h ++ ws2)%string ->
  all_space ws1 = true -> all_space ws2 = true ->
  JS.asciiLowerCase h = sha256Hex digest text ->
  JSON_parse text = Some rules ->
  downloadAndCacheRules i w
  = (saveRules (mkPayload rules (now i) (sha256Hex digest text)) w, Ok rules)
  /\ downloadAndCacheRulesIfChanged i (mkWorld None (storedState w) (alarms w))
     = (saveRules (mkPayload rules (now i) (sha256Hex digest text)) w,
        Ok (rules, true)).
Proof.
  intros Ht Hr H1 H2 Hh Hp.
  assert (E : String_toLowerCase (String_trim (ws1 ++ h ++ ws2))
              = sha256Hex digest text)
    by (apply (hash_file_read ws1 h ws2 h (digest text) H1 H2 Hh)).
  split.
  - unfold downloadAndCacheRules. rewrite Ht, Hr. cbv zeta.
    rewrite E, String.eqb_refl, Hp. reflexivity.
  - unfold downloadAndCacheRulesIfChanged, loadCached. cbn [storedRules].
    rewrite Ht, Hr. cbv zeta. rewrite E, String.eqb_refl, Hp. reflexivity.
Qed.

(** *** Messages *)

(** X18 -- the message listener.  Only a refresh request changes the
    state, and it is answered with the verdict of the refresh; a debug
    request is answered with [hasRules] telling whether the popup's loader
    finds rules in the cache; any other type is answered with an error that
    names it; a message without a type is never answered. *)
Theorem message_contract (i : Inputs) (msgType : option string) (w : World) :
  let after := onMessage digest JSON_parse i msgType w in
  (msgType = Some "NUDELINK_REFRESH_RULES"%string ->
   after = (fst (ensureFreshRulesIfChanged i w),
            Some (RefreshDone (snd (ensureFreshRulesIfChanged i w)))))
  /\ (msgType <> Some "NUDELINK_REFRESH_RULES"%string -> fst after = w)
  /\ (msgType = Some "NUDELINK_DEBUG_STATE"%string ->
      exists lastUpdated hash,
        snd after
        = Some (DebugState
                  (match loadClearUrlsRules w with Some _ => true | None => false end)
                  (loadState w) lastUpdated hash))
  /\ (forall type, msgType = Some type -> type <> ""%string ->
      type <> "NUDELINK_REFRESH_RULES"%string ->
      type <> "NUDELINK_DEBUG_STATE"%string ->
      snd after = Some (UnknownType ("Unknown message type: " ++ type)))
  /\ (snd after = None <-> JS.truthy msgType = false).
Proof.
  cbv zeta. unfold onMessage. split; [|split; [|split; [|split]]].
  - intros ->. cbn. destruct (ensureFreshRulesIfChanged i w). reflexivity.
  - intros Hne. destruct msgType as [s|]; [|reflexivity]. cbn [from_option id].
    destruct (JS.truthy (Some s)); cbn [andb]; [|reflexivity].
    destruct (String.eqb s "NUDELINK_REFRESH_RULES") eqn:Er.
    + apply String.eqb_eq in Er. subst s. contradiction.
    + destruct (String.eqb s "NUDELINK_DEBUG_STATE"); reflexivity.
  - intros ->. cbn. unfold loadClearUrlsRules, loadRules.
    destruct (storedRules w) as [p|]; [|eauto].
    destruct (Json_truthy (rules p)); eauto.
  - intros type -> Hnot Hr Hd. cbn [from_option id].
    assert (T : JS.truthy (Some type) = true) by (destruct type; [contradiction|reflexivity]).
    rewrite T. cbn [andb].
    apply String.eqb_neq in Hr, Hd. rewrite Hr, Hd. reflexivity.
  - destruct (JS.truthy msgType) eqn:T; cbn [andb].
    + destruct (String.eqb _ _).
      * destruct (ensureFreshRulesIfChanged i w). split; discriminate.
      * destruct (String.eqb _ _); split; discriminate.
    + split; reflexivity.
Qed.

End RefreshProperties.

(** * The popups *)

Section PopupProperties.
Context `{Platform}.
Variable BAD_PARAMS_LIST : list string.
Variable REFERRAL_PARAMS_LIST : list string.

(** X19 -- what the popup of the heuristic cleaner shows.  Either the
    cleaner failed, and the popup shows the tab's URL with "Invalid URL";
    or it shows the cleaned URL with the class "muted good" and one of
    three texts: "Already clean" when nothing changed, "Cleaned" when
    something did, and "Unwrapped from" a redirector followed by "Cleaned"
    -- never "Unwrapped from" followed by "Already clean". *)
Theorem heuristic_popup_view (options : PopupOptions) (originalUrl : string) :
  let r := HeuristicPopup.getCleanedUrl BAD_PARAMS_LIST REFERRAL_PARAMS_LIST
             originalUrl options in
  let v := HeuristicPopup.refreshPopup BAD_PARAMS_LIST REFERRAL_PARAMS_LIST
             options originalUrl in
  (error r <> None /\ urlField v = originalUrl
   /\ statusText v = "Invalid URL"%string /\ statusClass v = "muted"%string)
  \/ (error r = None /\ urlField v = url r /\ statusClass v = "muted good"%string
      /\ ((changed r = false /\ unwrappedFrom r = None
           /\ statusText v = "Already clean ✨"%string)
          \/ (changed r = true /\ unwrappedFrom r = None
              /\ statusText v = "Cleaned ✓"%string)
          \/ (changed r = true
              /\ exists src, In src ["google"; "facebook"; "instagram"]%string
                             /\ unwrappedFrom r = Some src
                             /\ statusText v
                                = ("Unwrapped from " ++ src ++ " · Cleaned ✓")%string))).
Proof.
  cbv zeta. unfold HeuristicPopup.refreshPopup, HeuristicPopup.getCleanedUrl.
  set (opts := mkStripOptions [] [] (optRemoveReferral options)).
  set (input := if negb (optCleanHash options)
                then match URL_new originalUrl with
                     | Some urlObj => URL_toString (URL_set_hash urlObj "")
                     | None => originalUrl
                     end
                else originalUrl).
  unfold stripTracking, HeuristicPopup.updatePopupUI.
  pose proof (unwrap_from (String_trim input)) as Hfrom.
  destruct (URL_new (fst (unwrapKnownRedirectors (String_trim input)))) as [urlObj|];
    [right|left; cbn; repeat split; discriminate].
  cbn [error url changed unwrappedFrom JS.truthy urlField statusText statusClass].
  split; [reflexivity|]. split; [reflexivity|]. split; [reflexivity|].
  destruct (JS.truthy (snd (unwrapKnownRedirectors (String_trim input)))) eqn:T.
  - right. right.
    fold (cleaned BAD_PARAMS_LIST REFERRAL_PARAMS_LIST opts urlObj true).
    rewrite (unwrapped_flag BAD_PARAMS_LIST REFERRAL_PARAMS_LIST opts urlObj).
    split; [reflexivity|].
    destruct Hfrom as [E|[E|[E|[E|[]]]]]; rewrite <- E in *; [discriminate| | |].
    + exists "google"%string. cbn. tauto.
    + exists "facebook"%string. cbn. tauto.
    + exists "instagram"%string. cbn. tauto.
  - cbn [JS.truthy].
    destruct (snd (cleanHash _ _ _ _)); [right; left|left]; repeat split.
Qed.

(** X20 -- what the popup of the rule interpreter shows.  The check boxes
    follow the options.  The URL field differs from the tab's URL only
    when the status class is "muted good"; this happens only when the
    cached rules are an object with providers, the tab has a URL and the
    rules were applied without error (to the URL without its fragment when
    cleanHash is off, with referrals allowed when removeReferral is off);
    the field then holds the result and the text tells whether it
    changed.  In every other case the field holds the tab's URL. *)
Theorem rules_popup_view (opts : PopupOptions) (rules : option Json)
    (original : string) (updateRulesButton : bool) :
  let v := RulesPopup.refreshPopup opts rules original updateRulesButton in
  removeReferralChecked v = optRemoveReferral opts
  /\ cleanHashChecked v = optCleanHash opts
  /\ ((urlField v = original /\ statusClass v = "muted"%string)
      \/ (statusClass v = "muted good"%string
          /\ original <> ""%string
          /\ exists providersObj,
               rules = Some (JsonObject (Some providersObj))
               /\ let r := applyClearUrls
                             (RulesPopup.maybeStripHash original (optCleanHash opts))
                             (RulesObject (Some providersObj))
                             (mkApplyOptions (negb (optRemoveReferral opts))) in
                  error r = None /\ urlField v = url r
                  /\ statusText v = if changed r then "Cleaned ✓"%string
                                    else "Already clean ✨"%string)).
Proof.
  cbv zeta. unfold RulesPopup.refreshPopup, RulesPopup.setStatus.
  destruct rules as [j|]; [|cbn; tauto].
  destruct (Json_truthy j) eqn:Tj; cbn [negb]; [|cbn; tauto].
  destruct (String.eqb original "") eqn:Eo.
  { apply String.eqb_eq in Eo. subst original. cbn. tauto. }
  apply String.eqb_neq in Eo.
  destruct j as [|t|[ps|]]; try discriminate; try (cbn; tauto).
  cbn [toRulesJson]. unfold applyClearUrls.
  destruct (URL_new (String_trim (RulesPopup.maybeStripHash original (optCleanHash opts))));
    [|cbn; tauto].
  cbn [error url changed JS.truthy]. cbn.
  split; [reflexivity|]. split; [reflexivity|]. right.
  split; [reflexivity|]. split; [exact Eo|]. exists ps.
  split; [reflexivity|]. split; [reflexivity|]. split; reflexivity.
Qed.

(** X21 -- from the download to the popup.  The download does not look
    into the JSON it stores.  After a refresh that downloaded rules, the
    popup's loader returns exactly the parsed value when it is truthy and
    null otherwise; and unless that value is an object with providers, the
    popup of a tab with a URL keeps the tab's URL and says that the rules
    are not available (or, for a falsy value, not loaded yet). *)
Theorem downloaded_rules_reach_popup
    (digest : string -> list Byte.byte) (JSON_parse : string -> option Json)
    (i : Background.Inputs) (w w1 : Background.World) (j : Json) :
  Background.downloadAndCacheRules digest JSON_parse i w = (w1, Background.Ok j) ->
  let loaded :=
    Background.loadClearUrlsRules
      (fst (Background.ensureFreshRules digest JSON_parse i w)) in
  loaded = (if Json_truthy j then Some j else None)
  /\ forall opts original updateRulesButton,
       original <> ""%string ->
       (forall providersObj, j <> JsonObject (Some providersObj)) ->
       let v := RulesPopup.refreshPopup opts loaded original updateRulesButton in
       urlField v = original
       /\ statusClass v = "muted"%string
       /\ statusText v
          = if Json_truthy j
            then "Could not clean — Rules not available"%string
            else if updateRulesButton
                 then "Rules not loaded yet. Click ‘Update rules’, then Refresh."%string
                 else "Rules not loaded yet. Please wait and reopen the popup."%string.
Proof.
  intros E. cbv zeta.
  assert (L : Background.loadClearUrlsRules
                (fst (Background.ensureFreshRules digest JSON_parse i w))
              = if Json_truthy j then Some j else None).
  { unfold Background.ensureFreshRules, Background.ensureFreshRulesWith.
    rewrite E. cbn [fst].
    destruct (download_cases digest JSON_parse i w) as [[e E']|(p & _ & E')];
      rewrite E in E'; [discriminate|].
    injection E' as -> ->. reflexivity. }
  split; [exact L|].
  intros opts original btn Ho Hj. rewrite L.
  unfold RulesPopup.refreshPopup, RulesPopup.setStatus.
  destruct (Json_truthy j) eqn:Tj; [|cbn; tauto].
  rewrite Tj. cbn [negb].
  apply String.eqb_neq in Ho. rewrite Ho.
  destruct j as [|t|[ps|]]; [discriminate| | |]; cbn; try tauto.
  exfalso. apply (Hj ps). reflexivity.
Qed.

End PopupProperties.

(** * The further theorems at concrete inputs *)

Section MoreWitnesses.
Import Samples MoreSamples.
Local Existing Instance Reference.platform.

(** X3 at the page address: keys are selected, the result reports it. *)
Lemma stripTracking_changed_witness :
  parse (fst (unwrapKnownRedirectors (String_trim pageInput))) = Some pageUrl
  /\ changed (clean defaultStripOptions pageInput) = true.
Proof.
  split; [reflexivity|].
  destruct (stripTracking_changed (H := Reference.platform) BAD_PARAMS_LIST REFERRAL_PARAMS_LIST
              defaultStripOptions pageInput pageUrl eq_refl) as [Hc _].
  unfold clean. rewrite Hc. vm_compute. reflexivity.
Defined.

(** X4 at the page address: custom_param survives. *)
Lemma stripTracking_survivors_witness :
  let final := strippedUrl (H := Reference.platform)
                 BAD_PARAMS_LIST REFERRAL_PARAMS_LIST defaultStripOptions pageUrl in
  parse (fst (unwrapKnownRedirectors (String_trim pageInput))) = Some pageUrl
  /\ url (clean defaultStripOptions pageInput) = normalizeUrl final
  /\ In ("custom_param", "value")%string (searchParams final).
Proof.
  cbv zeta. split; [reflexivity|].
  destruct (stripTracking_survivors (H := Reference.platform) BAD_PARAMS_LIST REFERRAL_PARAMS_LIST
              defaultStripOptions pageInput pageUrl eq_refl)
    as (Hurl & _ & Hin).
  split; [exact Hurl|]. apply Hin. split.
  - simpl. tauto.
  - right. repeat split; try reflexivity; vm_compute; intuition discriminate.
Defined.


(** X7 at an address in upper case. *)
Lemma applyClearUrls_unchanged_witness :
  parse (String_trim upperInput) = Some upperUrl
  /\ changed (apply upperInput (RulesObject (Some providersObj))
                    defaultApplyOptions) = false
  /\ apply upperInput (RulesObject (Some providersObj)) defaultApplyOptions
     = mkResult (normalizeUrl upperUrl) false None None.
Proof.
  split; [reflexivity|]. split; [vm_compute; reflexivity|].
  apply (applyClearUrls_unchanged (H := Reference.platform) upperInput providersObj defaultApplyOptions
           upperUrl eq_refl).
  vm_compute. reflexivity.
Defined.

(** X8 at a page that the provider spares: in the redirection pass the
    provider is tested on the address of that page while the working URL is
    another one; in the removal pass the page is the working URL. *)
Lemma provider_exception_suppression_witness :
  exceptions sparing = Some ["^https://example\.com/keep"]%string
  /\ safeRegExp "^https://example\.com/keep" "i" = Some sparingPattern
  /\ RegExp_test sparingPattern (URL_toString keepUrl) = true
  /\ RegExp_test sparingPattern (URL_toString trackedUrl) = false
  /\ redirectProvider (URL_toString keepUrl) (trackedUrl, true) sparing
     = (trackedUrl, true)
  /\ redirectionPass [sparing] keepUrl = redirectionPass [] keepUrl
  /\ removalProvider defaultApplyOptions (keepUrl, false) sparing = (keepUrl, false).
Proof.
  split; [reflexivity|]. split; [reflexivity|]. split; [reflexivity|].
  split; [reflexivity|].
  destruct (provider_exception_suppression (H := Reference.platform)
              defaultApplyOptions sparing ["^https://example\.com/keep"]%string
              "^https://example\.com/keep" sparingPattern
              eq_refl (or_introl eq_refl) eq_refl) as (Hr & Hp & Hd).
  split; [apply Hr; reflexivity|].
  split; [apply (Hp [] [] keepUrl); reflexivity|].
  apply Hd. reflexivity.
Defined.


(** X15 after two failures: the third one waits 15 minutes. *)
Lemma backoff_schedule_witness :
  (0 <= currentIndex emptyWorld)%Z
  /\ Background.alarms (Background.handleFailure online
               (fold_left (fun w j => Background.handleFailure j w)
                          [online; online] emptyWorld))
     !! Background.RETRY_ALARM
     = Some (Background.OneShot (Some 901000%Z)).
Proof.
  split; [vm_compute; discriminate|].
  destruct (backoff_schedule [online; online] online emptyWorld) as (_ & Ha & _).
  - vm_compute. discriminate.
  - exact Ha.
Defined.

(** X16 with the rules file gone after the first refresh. *)
Lemma unchanged_upstream_hash_witness :
  Background.fetchText rulesDown Background.HASH_URL
  = Background.fetchText online Background.HASH_URL
  /\ snd (Background.ensureFreshRules digest JSON_parse online emptyWorld) = true
  /\ snd (Background.ensureFreshRulesIfChanged digest JSON_parse rulesDown
            (fst (Background.ensureFreshRules digest JSON_parse online emptyWorld)))
     = true.
Proof.
  split; [reflexivity|]. split; [reflexivity|].
  destruct (unchanged_upstream_hash digest JSON_parse online rulesDown emptyWorld
              eq_refl) as [Hv _].
  destruct (Hv eq_refl) as [E _]. rewrite E. reflexivity.
Defined.

(** X17 at a hash file in upper case with white space around. *)
Lemma hash_file_tolerance_witness :
  Background.fetchText online Background.HASH_URL
  = Some (" " ++ "AB01" ++ String (ascii_of_nat 10) EmptyString)%string
  /\ JS.asciiLowerCase "AB01" = Background.sha256Hex digest "{}"
  /\ snd (Background.downloadAndCacheRules digest JSON_parse online emptyWorld)
     = Background.Ok (JsonObject None).
Proof.
  split; [reflexivity|]. split; [reflexivity|].
  destruct (hash_file_tolerance digest JSON_parse online emptyWorld "{}" " " "AB01"
              (String (ascii_of_nat 10) EmptyString) (JsonObject None)
              eq_refl eq_refl eq_refl eq_refl eq_refl eq_refl) as [E _].
  rewrite E. reflexivity.
Defined.

(** X21 after the download of an object without providers. *)
Lemma downloaded_rules_reach_popup_witness :
  snd (Background.downloadAndCacheRules digest JSON_parse online emptyWorld)
  = Background.Ok (JsonObject None)
  /\ statusText
       (RulesPopup.refreshPopup (mkPopupOptions true true)
          (Background.loadClearUrlsRules
             (fst (Background.ensureFreshRules digest JSON_parse online emptyWorld)))
          trackedInput false)
     = "Could not clean — Rules not available"%string.
Proof.
  split; [reflexivity|].
  destruct (downloaded_rules_reach_popup (H := Reference.platform) digest JSON_parse online emptyWorld
              (fst (Background.downloadAndCacheRules (H := Reference.platform)
                      digest JSON_parse online emptyWorld))
              (JsonObject None) eq_refl) as [_ Hv].
  destruct (Hv (mkPopupOptions true true) trackedInput false) as (_ & _ & Ht).
  - discriminate.
  - intros ps. discriminate.
  - exact Ht.
Defined.

End MoreWitnesses.
